(** * Thematic mapping engine of the Natividade geoportal (src/app.js)

    A shallow embedding of the thematic classification and rendering code
    of [src/app.js]: the classifier [calculateJenks], the colour mapper
    [getColorForValue], the legend [updateLegend], the controller
    ([applyThematicMapping], [resetThematicMapping]) and the hover handlers
    ([highlightFeatureFixed], [resetHighlight]), together with the part of
    the JavaScript runtime and of Leaflet they rely on. *)

From Stdlib Require Import Ascii String QArith.
From stdpp Require Import base option list strings gmap.

Local Open Scope string_scope.
Local Open Scope nat_scope.
Local Open Scope list_scope.

(** ** JavaScript values

    A JS number is an IEEE double.  The thematic code never computes with
    the numbers it classifies: it compares them ([<=], the sign of [a - b]
    in the sort comparator) and indexes arrays with them.  Every finite
    double is a rational and both comparisons agree with the order of the
    rationals, so a finite number is modelled by its exact value in [Q];
    [NaN] and the two infinities are separate constructors.  The sign of
    zero, which no comparison observes, is not modelled. *)

Module JS.

Inductive number : Type :=
  | NaN
  | NegInf
  | Fin (q : Q)
  | PosInf.

(** The values a GeoJSON property bag can hold (nested objects and arrays
    left out), plus [undefined], the result of reading an absent key. *)
Inductive value : Type :=
  | VUndefined
  | VNull
  | VBool (b : bool)
  | VNum (n : number)
  | VStr (s : string).

Definition of_Z (z : Z) : number := Fin (inject_Z z).

Definition is_NaN (n : number) : bool :=
  match n with NaN => true | _ => false end.

Definition is_finite (n : number) : bool :=
  match n with Fin _ => true | _ => false end.

(** [a <= b] on numbers: false as soon as one side is [NaN]. *)
Definition num_le (a b : number) : bool :=
  match a, b with
  | NaN, _ | _, NaN => false
  | NegInf, _ => true
  | _, PosInf => true
  | Fin x, Fin y => Qle_bool x y
  | _, _ => false
  end.

(** [a - b > 0], the only thing [Array.prototype.sort] asks of the
    comparator [(a, b) => a - b] when it decides to move [a] after [b].
    [Infinity - Infinity] is [NaN], which is not positive. *)
Definition sub_pos (a b : number) : bool :=
  match a, b with
  | NaN, _ | _, NaN => false
  | Fin x, Fin y => negb (Qle_bool x y)
  | PosInf, (NegInf | Fin _) => true
  | Fin _, NegInf => true
  | _, _ => false
  end.

(** *** String to number (ECMA-262, StringNumericLiteral)

    Strings are byte strings; of the white space ECMA-262 skips, the
    characters of ASCII are recognised.  A literal denotes its exact
    decimal value. *)

Definition is_ws (c : ascii) : bool :=
  let n := nat_of_ascii c in
  ((n =? 9) || (n =? 10) || (n =? 11) || (n =? 12) || (n =? 13) || (n =? 32))%nat.

(** Value of [c] as a digit in bases up to 16. *)
Definition digit_value (c : ascii) : option Z :=
  let n := Z.of_nat (nat_of_ascii c) in
  if (48 <=? n)%Z && (n <=? 57)%Z then Some (n - 48)%Z
  else if (97 <=? n)%Z && (n <=? 102)%Z then Some (n - 87)%Z
  else if (65 <=? n)%Z && (n <=? 70)%Z then Some (n - 55)%Z
  else None.

(** Reads the longest run of digits of [base], accumulating their value
    onto [acc] and counting them onto [cnt]. *)
Fixpoint read_digits (base : Z) (s : list ascii) (acc : Z) (cnt : nat)
  : Z * nat * list ascii :=
  match s with
  | c :: s' =>
      match digit_value c with
      | Some d =>
          if (d <? base)%Z then read_digits base s' (base * acc + d)%Z (S cnt)
          else (acc, cnt, s)
      | None => (acc, cnt, s)
      end
  | [] => (acc, cnt, s)
  end.

Definition is_char (c : ascii) (x : string) : bool :=
  match x with
  | String d EmptyString => if decide (c = d) then true else false
  | _ => false
  end.

(** An optional ExponentPart; a malformed one is not consumed. *)
Definition read_exponent (s : list ascii) : Z * list ascii :=
  match s with
  | c :: s1 =>
      if is_char c "e" || is_char c "E" then
        let '(sg, s2) :=
          match s1 with
          | d :: t =>
              if is_char d "+" then (1%Z, t)
              else if is_char d "-" then ((-1)%Z, t)
              else (1%Z, s1)
          | [] => (1%Z, s1)
          end in
        let '(e, n, s3) := read_digits 10 s2 0%Z 0 in
        if (n =? 0)%nat then (0%Z, s) else ((sg * e)%Z, s3)
      else (0%Z, s)
  | [] => (0%Z, s)
  end.

(** [m * 10 ^ e] as a rational. *)
Definition scale10 (m e : Z) : Q :=
  if (0 <=? e)%Z then inject_Z (m * 10 ^ e)
  else Qmake m (Z.to_pos (10 ^ (- e))).

Fixpoint strip_prefix (p s : list ascii) : option (list ascii) :=
  match p, s with
  | [], _ => Some s
  | a :: p', b :: s' => if decide (a = b) then strip_prefix p' s' else None
  | _ :: _, [] => None
  end.

(** The longest prefix of [s] that is a StrUnsignedDecimalLiteral, as a
    non-negative number, with what follows it. *)
Definition read_unsigned (s : list ascii) : option (number * list ascii) :=
  match strip_prefix (list_ascii_of_string "Infinity") s with
  | Some rest => Some (PosInf, rest)
  | None =>
      let '(ip, ni, s1) := read_digits 10 s 0%Z 0 in
      let '(m, nf, s2, dot) :=
        match s1 with
        | c :: t =>
            if is_char c "." then
              let '(m, nf, s2) := read_digits 10 t ip 0 in (m, nf, s2, true)
            else (ip, 0, s1, false)
        | [] => (ip, 0, s1, false)
        end in
      if ((ni =? 0) && (nf =? 0))%nat then None
      else
        let '(e, s3) := read_exponent s2 in
        Some (Fin (scale10 m (e - Z.of_nat nf)), s3)
  end.

Definition negate (n : number) : number :=
  match n with
  | NaN => NaN
  | NegInf => PosInf
  | Fin q => Fin (Qopp q)
  | PosInf => NegInf
  end.

(** The longest prefix that is a StrDecimalLiteral (optional sign). *)
Definition read_decimal (s : list ascii) : option (number * list ascii) :=
  match s with
  | c :: t =>
      if is_char c "+" then read_unsigned t
      else if is_char c "-" then
        match read_unsigned t with
        | Some (n, rest) => Some (negate n, rest)
        | None => None
        end
      else read_unsigned s
  | [] => None
  end.

Fixpoint trim_start (s : list ascii) : list ascii :=
  match s with
  | c :: t => if is_ws c then trim_start t else s
  | [] => []
  end.

Definition trim (s : list ascii) : list ascii :=
  rev (trim_start (rev (trim_start s))).

(** A NonDecimalIntegerLiteral: [0x], [0o] or [0b] and at least one digit. *)
Definition read_radix (s : list ascii) : option number :=
  match s with
  | z :: x :: t =>
      if is_char z "0" then
        let base :=
          if is_char x "x" || is_char x "X" then Some 16%Z
          else if is_char x "o" || is_char x "O" then Some 8%Z
          else if is_char x "b" || is_char x "B" then Some 2%Z
          else None in
        match base with
        | Some b =>
            match read_digits b t 0%Z 0 with
            | (v, S _, []) => Some (of_Z v)
            | _ => Some NaN
            end
        | None => None
        end
      else None
  | _ => None
  end.

(** [Number(s)] for a string [s]: the whole trimmed string must be a
    numeric literal; the empty string is [0]. *)
Definition StringToNumber (s : string) : number :=
  match trim (list_ascii_of_string s) with
  | [] => of_Z 0
  | t =>
      match read_radix t with
      | Some n => n
      | None =>
          match read_decimal t with
          | Some (n, []) => n
          | _ => NaN
          end
      end
  end.

(** [ToNumber], the coercion applied by [isNaN] and by [<=] when the
    other operand is not a string. *)
Definition ToNumber (v : value) : number :=
  match v with
  | VUndefined => NaN
  | VNull => of_Z 0
  | VBool b => if b then of_Z 1 else of_Z 0
  | VNum n => n
  | VStr s => StringToNumber s
  end.

(** The global [isNaN]. *)
Definition isNaN (v : value) : bool := is_NaN (ToNumber v).

(** The global [parseFloat]: the argument is converted to a string, of
    which the longest numeric prefix is read.  ["undefined"], ["null"],
    ["true"] and ["false"] have none; the string of a number reads back
    as that number. *)
Definition parseFloat (v : value) : number :=
  match v with
  | VUndefined | VNull | VBool _ => NaN
  | VNum n => n
  | VStr s =>
      match read_decimal (trim_start (list_ascii_of_string s)) with
      | Some (n, _) => n
      | None => NaN
      end
  end.

(** [v <= b] where [b] is an array element that is a number or, when
    read out of range, [undefined] ([None]).  [b] is never a string, so
    the comparison is numeric. *)
Definition le (v : value) (b : option number) : bool :=
  match b with
  | Some n => num_le (ToNumber v) n
  | None => false
  end.

(** [values.sort((a, b) => a - b)]: the comparator is consistent on
    numbers other than [NaN], and the sort is stable, so the result is
    that of a stable insertion sort. *)
Fixpoint sort_insert (x : number) (l : list number) : list number :=
  match l with
  | [] => [x]
  | y :: l' => if sub_pos y x then x :: l else y :: sort_insert x l'
  end.

Definition sort (l : list number) : list number :=
  foldl (fun acc x => sort_insert x acc) [] l.

End JS.

Import JS.

(** ** Leaflet layers

    A feature layer is the Leaflet object built by [L.geoJSON] for one
    GeoJSON feature: a path (polygon) or, for point geometries, a circle
    marker.  Objects are identified by their Leaflet stamp.  [options] is
    the object's flattened [options] bag; [setStyle] copies every key of
    the style it is given into it ([Util.setOptions]), also a key whose
    value is [undefined]. *)

Record featureLayer : Type := {
  leaflet_id : nat;
  isCircleMarker : bool;
  properties : gmap string value;
  options : gmap string value
}.

Definition setStyle (style : gmap string value) (layer : featureLayer)
  : featureLayer :=
  {| leaflet_id := leaflet_id layer;
     isCircleMarker := isCircleMarker layer;
     properties := properties layer;
     options := style ∪ options layer |}.

(** [obj[key]] on a property bag. *)
Definition get (obj : gmap string value) (key : string) : value :=
  default VUndefined (obj !! key).

(** A colour read from an array: a string, or [undefined] out of range. *)
Definition color_value (c : option string) : value :=
  match c with Some s => VStr s | None => VUndefined end.

Definition dec (n d : Z) : value := VNum (Fin (Qmake n (Z.to_pos d))).

(** ** Configuration *)

Record layerConfig : Type := { file : string; color : string }.

Definition CONFIG_layers : list (string * layerConfig) :=
  [ ("distritos", {| file := "data/bairros_nat.geojson"; color := "#667eea" |});
    ("setores", {| file := "data/setores1_nat.geojson"; color := "#f093fb" |});
    ("urb_rur", {| file := "data/urb_rur_nat.geojson"; color := "#4facfe" |});
    ("deficit_hab", {| file := "data/deficit_hab_nat.geojson"; color := "#fa709a" |});
    ("residencia", {| file := "data/residencias_nat.geojson"; color := "#43e97b" |}) ].

(** [obj[name]] on an object whose keys are kept in insertion order. *)
Fixpoint entry {A : Type} (name : string) (obj : list (string * A)) : option A :=
  match obj with
  | [] => None
  | (k, v) :: rest => if decide (k = name) then Some v else entry name rest
  end.

(** ** Application state: the module-level variables and the DOM nodes
    the thematic code writes *)

Record legendItem : Type := {
  swatch : option string;
  range_start : number;
  range_end : number
}.

Record legend : Type := {
  display : string;
  title : string;
  content : list legendItem
}.

Record app : Type := {
  dataLayers : list (string * list featureLayer);
  currentThematicAttribute : option string;
  thematicBreaks : list (option number);
  thematicColors : list string;
  legendContainer : legend;
  loadingHidden : bool;
  alerts : list string
}.

Definition set_dataLayers (d : list (string * list featureLayer)) (st : app) : app :=
  {| dataLayers := d;
     currentThematicAttribute := currentThematicAttribute st;
     thematicBreaks := thematicBreaks st;
     thematicColors := thematicColors st;
     legendContainer := legendContainer st;
     loadingHidden := loadingHidden st;
     alerts := alerts st |}.

Definition set_currentThematicAttribute (a : option string) (st : app) : app :=
  {| dataLayers := dataLayers st;
     currentThematicAttribute := a;
     thematicBreaks := thematicBreaks st;
     thematicColors := thematicColors st;
     legendContainer := legendContainer st;
     loadingHidden := loadingHidden st;
     alerts := alerts st |}.

Definition set_thematicBreaks (b : list (option number)) (st : app) : app :=
  {| dataLayers := dataLayers st;
     currentThematicAttribute := currentThematicAttribute st;
     thematicBreaks := b;
     thematicColors := thematicColors st;
     legendContainer := legendContainer st;
     loadingHidden := loadingHidden st;
     alerts := alerts st |}.

Definition set_thematicColors (c : list string) (st : app) : app :=
  {| dataLayers := dataLayers st;
     currentThematicAttribute := currentThematicAttribute st;
     thematicBreaks := thematicBreaks st;
     thematicColors := c;
     legendContainer := legendContainer st;
     loadingHidden := loadingHidden st;
     alerts := alerts st |}.

Definition set_legendContainer (l : legend) (st : app) : app :=
  {| dataLayers := dataLayers st;
     currentThematicAttribute := currentThematicAttribute st;
     thematicBreaks := thematicBreaks st;
     thematicColors := thematicColors st;
     legendContainer := l;
     loadingHidden := loadingHidden st;
     alerts := alerts st |}.

Definition set_loadingHidden (h : bool) (st : app) : app :=
  {| dataLayers := dataLayers st;
     currentThematicAttribute := currentThematicAttribute st;
     thematicBreaks := thematicBreaks st;
     thematicColors := thematicColors st;
     legendContainer := legendContainer st;
     loadingHidden := h;
     alerts := alerts st |}.

(** [alert(msg)]: the messages shown to the user, oldest first. *)
Definition alert (msg : string) (st : app) : app :=
  {| dataLayers := dataLayers st;
     currentThematicAttribute := currentThematicAttribute st;
     thematicBreaks := thematicBreaks st;
     thematicColors := thematicColors st;
     legendContainer := legendContainer st;
     loadingHidden := loadingHidden st;
     alerts := alerts st ++ [msg] |}.

(** [dataLayers[name].eachLayer(f)], [f] mutating each layer in place. *)
Fixpoint eachLayer (name : string) (f : featureLayer -> featureLayer)
    (d : list (string * list featureLayer)) : list (string * list featureLayer) :=
  match d with
  | [] => []
  | (k, g) :: rest =>
      if decide (k = name) then (k, f <$> g) :: rest
      else (k, g) :: eachLayer name f rest
  end.

Definition showLoading (st : app) : app := set_loadingHidden false st.
Definition hideLoading (st : app) : app := set_loadingHidden true st.

(** How a handler ends: normally, or by an uncaught [TypeError] (a method
    called on [undefined]), in either case with the state it leaves. *)
Inductive completion : Type :=
  | Normal (st : app)
  | TypeError (st : app).

Definition state_of (c : completion) : app :=
  match c with Normal st | TypeError st => st end.

(** ** Event targets

    [e.target] is a layer object; it is named here by its Leaflet stamp.
    [with_layer] runs a mutation on that object, wherever it is held. *)

Definition is_layer (target : nat) (layer : featureLayer) : bool :=
  Nat.eqb (leaflet_id layer) target.

Definition with_layer (target : nat) (f : featureLayer -> featureLayer)
    (d : list (string * list featureLayer)) : list (string * list featureLayer) :=
  (fun kg : string * list featureLayer =>
     (kg.1, (fun layer => if is_layer target layer then f layer else layer) <$> kg.2))
  <$> d.


(** ** Style policy

    [getFeatureStyle(feature, color)] does not look at [feature]. *)

Definition getFeatureStyle (color : string) : gmap string value :=
  list_to_map
    [ ("fillColor", VStr color);
      ("weight", dec 2 1);
      ("opacity", dec 1 1);
      ("color", VStr color);
      ("dashArray", VStr "");
      ("fillOpacity", dec 3 10) ].

(** The body of [highlightFeatureFixed], as a mutation of the target
    layer ([bringToFront] changes the drawing order only). *)
Definition highlightStyle (layer : featureLayer) : featureLayer :=
  if isCircleMarker layer then
    setStyle
      (list_to_map
         [ ("radius", dec 8 1);
           ("weight", dec 3 1);
           ("color", VStr "#ffffff");
           ("fillOpacity", get (options layer) "fillOpacity");
           ("fillColor", get (options layer) "fillColor") ])
      layer
  else
    setStyle
      (list_to_map
         [ ("weight", dec 3 1);
           ("color", VStr "#ffffff");
           ("dashArray", VStr "");
           ("fillOpacity", get (options layer) "fillOpacity") ])
      layer.

Definition highlightFeatureFixed (target : nat) (st : app) : app :=
  set_dataLayers (with_layer target highlightStyle (dataLayers st)) st.

Fixpoint getLayerName (target : nat) (d : list (string * list featureLayer))
  : option string :=
  match d with
  | [] => None
  | (name, dataLayer) :: rest =>
      if existsb (is_layer target) dataLayer then Some name
      else getLayerName target rest
  end.

(** ** Colour mapper *)

(** The [for] loop of [getColorForValue], at index [i], [breaks] being
    what is left of the array from [i] on. *)
Fixpoint getColorForValue_from (i : nat) (value : value)
    (breaks : list (option number)) (colors : list string) : option string :=
  match breaks with
  | [] => colors !! (length colors - 1)
  | b :: rest =>
      if JS.le value b then colors !! i
      else getColorForValue_from (S i) value rest colors
  end.

Definition is_undefined (v : value) : bool :=
  match v with VUndefined => true | _ => false end.

Definition is_null (v : value) : bool :=
  match v with VNull => true | _ => false end.

Definition getColorForValue (value : value) (breaks : list (option number))
    (colors : list string) : option string :=
  if is_undefined value || is_null value || isNaN value then Some "#ccc"
  else getColorForValue_from 0 value breaks colors.

(** ** Classifier *)

Definition calculateJenks {A : Type} (values : list A) (classes : nat)
  : list (option A) :=
  let step := length values / classes in
  let breaks :=
    foldl (fun breaks i => breaks ++ [values !! (i * step)]) []
          (seq 1 (classes - 1)) in
  breaks ++ [values !! (length values - 1)].

(** ** Legend

    An entry keeps the two numbers of its label; their rendering by
    [toLocaleString('pt-BR', { maximumFractionDigits: 1 })] is the
    browser's.  [end.toLocaleString] throws when [end] is [undefined]. *)

Fixpoint updateLegend_from (i : nat) (start : number)
    (breaks : list (option number)) (colors : list string)
    (content : list legendItem) : list legendItem * bool :=
  match breaks with
  | [] => (content, true)
  | None :: _ => (content, false)
  | Some end_ :: rest =>
      let item :=
        {| swatch := colors !! i; range_start := start; range_end := end_ |} in
      updateLegend_from (S i) end_ rest colors (content ++ [item])
  end.

Definition updateLegend (attribute : string) (breaks : list (option number))
    (colors : list string) (st : app) : completion :=
  let container := legendContainer st in
  let '(content, ok) := updateLegend_from 0 (of_Z 0) breaks colors [] in
  let written :=
    {| display := display container;
       title := "Legenda: " +:+ attribute;
       content := content |} in
  if ok then
    Normal (set_legendContainer
              {| display := "block"; title := title written; content := content |}
              st)
  else TypeError (set_legendContainer written st).

(** ** Thematic controller *)

Definition thematicPalette : list string :=
  [ "#ffffb2"; "#fecc5c"; "#fd8d3c"; "#f03b20"; "#bd0026" ].

(** The values pushed by the first [eachLayer] of [applyThematicMapping]. *)
Fixpoint extractValues (attribute : string) (layers : list featureLayer)
  : list number :=
  match layers with
  | [] => []
  | layer :: rest =>
      let val := parseFloat (get (properties layer) attribute) in
      if negb (is_NaN val) then val :: extractValues attribute rest
      else extractValues attribute rest
  end.

(** The callback of the second [eachLayer] of [applyThematicMapping],
    [breaks] and [colors] being [thematicBreaks] and [thematicColors]. *)
Definition applyStyle (attribute : string) (breaks : list (option number))
    (colors : list string) (layer : featureLayer) : featureLayer :=
  let val := parseFloat (get (properties layer) attribute) in
  let color := getColorForValue (VNum val) breaks colors in
  setStyle
    (list_to_map
       [ ("fillColor", color_value color);
         ("fillOpacity", dec 8 10);
         ("weight", dec 1 1);
         ("color", VStr "#333") ])
    layer.

Definition applyThematicMapping (attribute : string) (st : app) : completion :=
  match entry "setores" (dataLayers st) with
  | None => Normal st
  | Some setores =>
      let st := showLoading st in
      let st := set_currentThematicAttribute (Some attribute) st in
      let values := extractValues attribute setores in
      if Nat.eqb (length values) 0 then
        Normal (hideLoading
                  (alert "Não há dados numéricos válidos para este atributo." st))
      else
        let values := JS.sort values in
        let st := set_thematicBreaks (calculateJenks values 5) st in
        let st := set_thematicColors thematicPalette st in
        let st :=
          set_dataLayers
            (eachLayer "setores"
               (applyStyle attribute (thematicBreaks st) (thematicColors st))
               (dataLayers st))
            st in
        match updateLegend attribute (thematicBreaks st) (thematicColors st) st with
        | Normal st => Normal (hideLoading st)
        | TypeError st => TypeError st
        end
  end.

(** [legendContainer] is an element of the page, so no step of
    [resetThematicMapping] can throw. *)
Definition resetThematicMapping (st : app) : app :=
  match entry "setores" (dataLayers st) with
  | None => st
  | Some _ =>
      let st := set_currentThematicAttribute None st in
      match entry "setores" CONFIG_layers with
      | None => st
      | Some config =>
          let st :=
            set_dataLayers
              (eachLayer "setores"
                 (fun layer => setStyle (getFeatureStyle (color config)) layer)
                 (dataLayers st))
              st in
          let container := legendContainer st in
          set_legendContainer
            {| display := "none";
               title := title container;
               content := content container |}
            st
      end
  end.

(** A string or [null] used as a condition. *)
Definition truthy (s : option string) : bool :=
  match s with
  | None => false
  | Some s => negb (String.eqb s "")
  end.

(** The body of [resetHighlight] once [layerName] is known, as a mutation
    of the target layer. *)
Definition restoreStyle (st : app) (layerName : option string)
    (layer : featureLayer) : featureLayer :=
  if truthy (currentThematicAttribute st)
     && bool_decide (layerName = Some "setores") then
    let value :=
      get (properties layer) (default "" (currentThematicAttribute st)) in
    let color := getColorForValue value (thematicBreaks st) (thematicColors st) in
    setStyle
      (list_to_map
         [ ("fillColor", color_value color);
           ("weight", dec 1 1);
           ("opacity", dec 1 1);
           ("color", VStr "#000000");
           ("fillOpacity", dec 7 10) ])
      layer
  else
    match layerName ≫= fun name => entry name CONFIG_layers with
    | None => layer
    | Some config =>
        if isCircleMarker layer then
          setStyle
            (list_to_map
               [ ("radius", dec 6 1);
                 ("fillColor", VStr (color config));
                 ("color", VStr "#ffffff");
                 ("weight", dec 2 1);
                 ("opacity", dec 1 1);
                 ("fillOpacity", dec 7 10) ])
            layer
        else
          let layer := setStyle (getFeatureStyle (color config)) layer in
          if bool_decide (layerName = Some "distritos") then
            setStyle
              (list_to_map [ ("color", VStr "#000000"); ("weight", dec 2 1) ])
              layer
          else layer
    end.

Definition resetHighlight (target : nat) (st : app) : app :=
  let layerName := getLayerName target (dataLayers st) in
  set_dataLayers
    (with_layer target (restoreStyle st layerName) (dataLayers st))
    st.

(** ** Vocabulary of the properties *)

(** A sequence is ascending when each element is [<=] the next one. *)
Fixpoint ascending (l : list number) : bool :=
  match l with
  | x :: (y :: _) as rest => num_le x y && ascending rest
  | _ => true
  end.

(** The array indices [calculateJenks] reads, in the order it reads them. *)
Definition readIndices (n classes : nat) : list nat :=
  ((fun i => i * (n / classes)) <$> seq 1 (classes - 1)) ++ [n - 1].

(** The entries the loop of [updateLegend] appends for breaks that are all
    numbers: one per break, from the previous break (or [start]) to it. *)
Fixpoint entries_from (i : nat) (start : number) (breaks : list number)
    (colors : list string) : list legendItem :=
  match breaks with
  | [] => []
  | end_ :: rest =>
      {| swatch := colors !! i; range_start := start; range_end := end_ |}
      :: entries_from (S i) end_ rest colors
  end.

(** The [i]-th layer of the census-sector group. *)
Definition setoresLayer (i : nat) (st : app) : option featureLayer :=
  entry "setores" (dataLayers st) ≫= fun group => group !! i.

(** The style Leaflet holds for a layer under [key]. *)
Definition styleOf (key : string) (layer : featureLayer) : value :=
  get (options layer) key.


(** *** A small map: one district, three census sectors *)

Definition polygon (id : nat) (color : string) (props : list (string * value))
  : featureLayer :=
  {| leaflet_id := id;
     isCircleMarker := false;
     properties := list_to_map props;
     options := getFeatureStyle color |}.

Definition startup : app :=
  {| dataLayers :=
       [ ("distritos", [ polygon 1 "#667eea" [("NM_DIST", VStr "Natividade")] ]);
         ("setores",
          [ polygon 2 "#f093fb"
              [("NM_MUN", VStr "Natividade"); ("v0001", VNum (of_Z 10))];
            polygon 3 "#f093fb"
              [("NM_MUN", VStr "Natividade"); ("v0001", VStr "")];
            polygon 4 "#f093fb"
              [("NM_MUN", VStr "Natividade"); ("v0001", VNum (of_Z 30))] ]) ];
     currentThematicAttribute := None;
     thematicBreaks := [];
     thematicColors := [];
     legendContainer := {| display := "none"; title := ""; content := [] |};
     loadingHidden := true;
     alerts := [] |}.

(** The map once population (v0001) has been applied. *)
Definition mapped : app := state_of (applyThematicMapping "v0001" startup).

(** ** Vocabulary of the further properties *)

(** The index of the first break the value is [<=] to, when there is one:
    the class [getColorForValue] puts the value in. *)
Fixpoint firstClass (value : value) (breaks : list (option number)) : option nat :=
  match breaks with
  | [] => None
  | b :: rest =>
      if JS.le value b then Some 0 else S <$> firstClass value rest
  end.

(** What a layer is, apart from its style: stamp, kind and attributes. *)
Definition layerData (layer : featureLayer) : nat * bool * gmap string value :=
  (leaflet_id layer, isCircleMarker layer, properties layer).

Definition storeData (d : list (string * list featureLayer))
  : list (string * list (nat * bool * gmap string value)) :=
  (fun kg : string * list featureLayer => (kg.1, layerData <$> kg.2)) <$> d.

(** The [i]-th layer of the group [name]. *)
Definition layerAt (name : string) (i : nat) (st : app) : option featureLayer :=
  entry name (dataLayers st) ≫= fun group => group !! i.

(** The events the thematic engine answers, and their handlers. *)
Inductive event : Type :=
  | Apply (attribute : string)
  | Reset
  | MouseOver (target : nat)
  | MouseOut (target : nat).

Definition dispatch (e : event) (st : app) : completion :=
  match e with
  | Apply attribute => applyThematicMapping attribute st
  | Reset => Normal (resetThematicMapping st)
  | MouseOver target => Normal (highlightFeatureFixed target st)
  | MouseOut target => Normal (resetHighlight target st)
  end.

(** The state after a sequence of events, each handled to its end. *)
Definition run (events : list event) (st : app) : app :=
  foldl (fun st e => state_of (dispatch e st)) st events.

(** The stored classification is either none yet, or a complete one: five
    ascending breaks, the palette, and legend entries drawn from them. *)
Definition thematicInvariant (st : app) : Prop :=
  (thematicBreaks st = [] /\ thematicColors st = []
   /\ content (legendContainer st) = [])
  \/ (exists breaks : list number,
        length breaks = 5
        /\ ascending breaks = true
        /\ thematicBreaks st = Some <$> breaks
        /\ thematicColors st = thematicPalette
        /\ content (legendContainer st)
           = entries_from 0 (of_Z 0) breaks thematicPalette).

(** ** Basemap management

    A tile layer is created once per basemap name and kept in
    [basemapLayers]; the map holds the tile layers added to it, named here
    by their key.  [basemapOptions] are the [.basemap-option] elements of
    the page in document order, each with its [data-basemap] value and
    whether it carries the class [active]. *)

Inductive outcome (S : Type) : Type :=
  | Returned (s : S)
  | Thrown (s : S).
Arguments Returned {S} s.
Arguments Thrown {S} s.

Definition outcome_state {S : Type} (o : outcome S) : S :=
  match o with Returned s | Thrown s => s end.

Record basemapConfig : Type := { url : string; attribution : string }.

Definition CONFIG_maxZoom : nat := 18.

Definition CONFIG_basemaps : list (string * basemapConfig) :=
  [ ("streets",
     {| url := "https://{s}.tile.openstreetmap.org/{z}/{x}/{y}.png";
        attribution := "© OpenStreetMap contributors" |});
    ("satellite",
     {| url := "https://server.arcgisonline.com/ArcGIS/rest/services/World_Imagery/MapServer/tile/{z}/{y}/{x}";
        attribution := "© Esri" |});
    ("terrain",
     {| url := "https://{s}.tile.opentopomap.org/{z}/{x}/{y}.png";
        attribution := "© OpenTopoMap contributors" |}) ].

Record tileLayer : Type := {
  tile_url : string;
  tile_attribution : string;
  tile_maxZoom : nat
}.

Record basemaps : Type := {
  currentBasemap : string;
  basemapLayers : gmap string tileLayer;
  shownBasemaps : gset string;
  basemapOptions : list (string * bool)
}.

(** [classList.add('active')] on the first element whose [data-basemap]
    is [name]; [None] when [querySelector] finds no such element. *)
Fixpoint activate (name : string) (options : list (string * bool))
  : option (list (string * bool)) :=
  match options with
  | [] => None
  | (k, a) :: rest =>
      if decide (k = name) then Some ((k, true) :: rest)
      else cons (k, a) <$> activate name rest
  end.

Definition addBasemap (basemapName : string) (st : basemaps) : outcome basemaps :=
  (* remove the basemap shown, if its tile layer exists *)
  let shown :=
    match basemapLayers st !! currentBasemap st with
    | Some _ => shownBasemaps st ∖ {[ currentBasemap st ]}
    | None => shownBasemaps st
    end in
  (* create the tile layer on first use *)
  let created :=
    match basemapLayers st !! basemapName with
    | Some _ => Some (basemapLayers st)
    | None =>
        match entry basemapName CONFIG_basemaps with
        | Some config =>
            Some (<[ basemapName :=
                      {| tile_url := url config;
                         tile_attribution := attribution config;
                         tile_maxZoom := CONFIG_maxZoom |} ]> (basemapLayers st))
        | None => None
        end
    end in
  match created with
  | None =>
      (* [config.url] on [undefined] *)
      Thrown {| currentBasemap := currentBasemap st;
                basemapLayers := basemapLayers st;
                shownBasemaps := shown;
                basemapOptions := basemapOptions st |}
  | Some layers =>
      let cleared := (fun o : string * bool => (o.1, false)) <$> basemapOptions st in
      match activate basemapName cleared with
      | Some options =>
          Returned {| currentBasemap := basemapName;
                      basemapLayers := layers;
                      shownBasemaps := shown ∪ {[ basemapName ]};
                      basemapOptions := options |}
      | None =>
          (* [classList] on [null] *)
          Thrown {| currentBasemap := basemapName;
                    basemapLayers := layers;
                    shownBasemaps := shown ∪ {[ basemapName ]};
                    basemapOptions := cleared |}
      end
  end.

(** At most the current basemap is on the map, and what is on the map has
    its tile layer in [basemapLayers]. *)
Definition oneBasemap (st : basemaps) : Prop :=
  shownBasemaps st ⊆ {[ currentBasemap st ]}
  /\ shownBasemaps st ⊆ dom (basemapLayers st).

(** The page as the script finds it: no tile layer yet, nothing shown. *)
Definition basemapsAtLoad (options : list (string * bool)) : basemaps :=
  {| currentBasemap := "streets";
     basemapLayers := ∅;
     shownBasemaps := ∅;
     basemapOptions := options |}.

(** ** Loading layers and the controls of the page

    [page] adds to the thematic state what the layer and thematic controls
    read and write: the data layers added to the map (by name: a group is
    created once per name), the attribute selection, the thematic
    attribute [select], the apply and reset buttons and the two panels.

    [loadLayer] is asynchronous; what it awaits is given to the model as
    the [fetched] it resumes with: an error of any step of its [try]
    block (fetch, HTTP status, JSON, reprojection, [L.geoJSON]) with its
    message, or the layers [L.geoJSON] built.  Handlers are run to their
    end one at a time. *)

Inductive fetched : Type :=
  | FetchFailed (message : string)
  | Fetched (layers : list featureLayer).

Record page : Type := {
  app_state : app;
  onMap : gset string;
  selectedAttributes : gset string;
  attributeSelect : string;
  applyBtnDisabled : bool;
  resetBtnDisplay : string;
  attributeSelectorDisplay : string;
  thematicMappingPanelDisplay : string
}.

Definition set_app (a : app) (st : page) : page :=
  {| app_state := a;
     onMap := onMap st;
     selectedAttributes := selectedAttributes st;
     attributeSelect := attributeSelect st;
     applyBtnDisabled := applyBtnDisabled st;
     resetBtnDisplay := resetBtnDisplay st;
     attributeSelectorDisplay := attributeSelectorDisplay st;
     thematicMappingPanelDisplay := thematicMappingPanelDisplay st |}.

Definition set_onMap (m : gset string) (st : page) : page :=
  {| app_state := app_state st;
     onMap := m;
     selectedAttributes := selectedAttributes st;
     attributeSelect := attributeSelect st;
     applyBtnDisabled := applyBtnDisabled st;
     resetBtnDisplay := resetBtnDisplay st;
     attributeSelectorDisplay := attributeSelectorDisplay st;
     thematicMappingPanelDisplay := thematicMappingPanelDisplay st |}.

Definition set_panels (d : string) (st : page) : page :=
  {| app_state := app_state st;
     onMap := onMap st;
     selectedAttributes := selectedAttributes st;
     attributeSelect := attributeSelect st;
     applyBtnDisabled := applyBtnDisabled st;
     resetBtnDisplay := resetBtnDisplay st;
     attributeSelectorDisplay := d;
     thematicMappingPanelDisplay := d |}.

Definition LF : string := String (ascii_of_nat 10) EmptyString.

(** The text [loadLayer] alerts when its [try] block fails. *)
Definition loadErrorMessage (layerName message file : string) : string :=
  "Erro ao carregar camada " +:+ layerName +:+ ": " +:+ message +:+ LF +:+ LF
  +:+ "Verifique se o arquivo " +:+ file +:+ " existe.".

(** [loadLayer(layerName)], resumed with [response]; [checked] is the
    state of the checkbox [layer-<layerName>]. *)
Definition loadLayer (layerName : string) (response : fetched) (checked : bool)
    (st : page) : outcome page :=
  match entry layerName (dataLayers (app_state st)) with
  | Some _ => Returned st
  | None =>
      match entry layerName CONFIG_layers with
      | None =>
          (* [config.file] throws, and so does the message of the [catch] *)
          Thrown st
      | Some config =>
          match response with
          | FetchFailed message =>
              Thrown (set_app
                        (alert (loadErrorMessage layerName message (file config))
                               (app_state st))
                        st)
          | Fetched layers =>
              let layers :=
                if decide (layerName = "distritos") then
                  setStyle
                    (list_to_map [ ("color", VStr "#000000"); ("weight", dec 2 1) ])
                  <$> layers
                else layers in
              let st :=
                set_app
                  (set_dataLayers
                     (dataLayers (app_state st) ++ [(layerName, layers)])
                     (app_state st))
                  st in
              Returned (if checked then set_onMap (onMap st ∪ {[ layerName ]}) st
                        else st)
          end
      end
  end.

(** [loadDataLayers()], its [loadLayer('distritos')] resumed with
    [response]. *)
Definition loadDataLayers (response : fetched) (checked : bool) (st : page)
  : outcome page :=
  let st := set_app (showLoading (app_state st)) st in
  match loadLayer "distritos" response checked st with
  | Returned st => Returned (set_app (hideLoading (app_state st)) st)
  | Thrown st =>
      Returned
        (set_app
           (alert "Erro ao carregar camadas. Verifique o console para mais detalhes."
                  (hideLoading (app_state st)))
           st)
  end.

(** The events of the controls, with what each handler needs from the
    page: the name in the checkbox id and its state, the value chosen in
    the [select], the hovered layer. *)
Inductive uiEvent : Type :=
  | LayerToggled (layerName : string) (checked : bool) (response : fetched)
  | AttributeToggled (attribute : string) (checked : bool)
  | AttributeSelected (value : string)
  | ApplyClicked
  | ResetClicked
  | MouseEntered (target : nat)
  | MouseLeft (target : nat).

Definition handle (e : uiEvent) (st : page) : outcome page :=
  match e with
  | LayerToggled layerName true response =>
      let st := set_app (showLoading (app_state st)) st in
      match loadLayer layerName response true st with
      | Thrown st => Thrown st
      | Returned st =>
          let st :=
            match entry layerName (dataLayers (app_state st)) with
            | Some _ => set_onMap (onMap st ∪ {[ layerName ]}) st
            | None => st
            end in
          let st := set_app (hideLoading (app_state st)) st in
          Returned (if decide (layerName = "setores") then set_panels "block" st
                    else st)
      end
  | LayerToggled layerName false _ =>
      let st :=
        match entry layerName (dataLayers (app_state st)) with
        | Some _ => set_onMap (onMap st ∖ {[ layerName ]}) st
        | None => st
        end in
      Returned (if decide (layerName = "setores") then
                  let st := set_panels "none" st in
                  set_app (resetThematicMapping (app_state st)) st
                else st)
  | AttributeToggled attribute checked =>
      Returned
        {| app_state := app_state st;
           onMap := onMap st;
           selectedAttributes :=
             if checked then selectedAttributes st ∪ {[ attribute ]}
             else selectedAttributes st ∖ {[ attribute ]};
           attributeSelect := attributeSelect st;
           applyBtnDisabled := applyBtnDisabled st;
           resetBtnDisplay := resetBtnDisplay st;
           attributeSelectorDisplay := attributeSelectorDisplay st;
           thematicMappingPanelDisplay := thematicMappingPanelDisplay st |}
  | AttributeSelected value =>
      Returned
        {| app_state := app_state st;
           onMap := onMap st;
           selectedAttributes := selectedAttributes st;
           attributeSelect := value;
           applyBtnDisabled := String.eqb value "";
           resetBtnDisplay := resetBtnDisplay st;
           attributeSelectorDisplay := attributeSelectorDisplay st;
           thematicMappingPanelDisplay := thematicMappingPanelDisplay st |}
  | ApplyClicked =>
      let attribute := attributeSelect st in
      if negb (String.eqb attribute "") then
        match applyThematicMapping attribute (app_state st) with
        | TypeError a => Thrown (set_app a st)
        | Normal a =>
            Returned
              {| app_state := a;
                 onMap := onMap st;
                 selectedAttributes := selectedAttributes st;
                 attributeSelect := attributeSelect st;
                 applyBtnDisabled := applyBtnDisabled st;
                 resetBtnDisplay := "flex";
                 attributeSelectorDisplay := attributeSelectorDisplay st;
                 thematicMappingPanelDisplay := thematicMappingPanelDisplay st |}
        end
      else Returned st
  | ResetClicked =>
      Returned
        {| app_state := resetThematicMapping (app_state st);
           onMap := onMap st;
           selectedAttributes := selectedAttributes st;
           attributeSelect := "";
           applyBtnDisabled := true;
           resetBtnDisplay := "none";
           attributeSelectorDisplay := attributeSelectorDisplay st;
           thematicMappingPanelDisplay := thematicMappingPanelDisplay st |}
  | MouseEntered target =>
      Returned (set_app (highlightFeatureFixed target (app_state st)) st)
  | MouseLeft target =>
      Returned (set_app (resetHighlight target (app_state st)) st)
  end.


(** The names of the loaded layer groups, in loading order. *)
Definition loadedLayers (st : page) : list string :=
  (dataLayers (app_state st)).*1.

(** Layers are loaded once, from the configuration, and only loaded
    layers are on the map. *)
Definition layersInvariant (st : page) : Prop :=
  NoDup (loadedLayers st)
  /\ Forall (fun name => entry name CONFIG_layers <> None) (loadedLayers st)
  /\ (forall name, name ∈ onMap st -> name ∈ loadedLayers st).


(** A page before any layer is loaded: the initial values of the script's
    variables, with the panels, the legend and the reset button hidden. *)
Definition pageAtLoad : page :=
  {| app_state :=
       {| dataLayers := [];
          currentThematicAttribute := None;
          thematicBreaks := [];
          thematicColors := [];
          legendContainer := {| display := "none"; title := ""; content := [] |};
          loadingHidden := true;
          alerts := [] |};
     onMap := ∅;
     selectedAttributes :=
       list_to_set ["CD_SETOR"; "NM_MUN"; "NM_DIST"; "AREA_KM2"; "v0001"; "v0002"; "v0007"];
     attributeSelect := "";
     applyBtnDisabled := true;
     resetBtnDisplay := "none";
     attributeSelectorDisplay := "none";
     thematicMappingPanelDisplay := "none" |}.


(** * Properties *)

(** ** The runtime's coercions on a few strings *)

Example parseFloat_reads_prefix :
  parseFloat (VStr "12,5") = of_Z 12
  /\ parseFloat (VStr "  -3.25e2 ha") = of_Z (-325)
  /\ parseFloat (VStr ".5") = Fin (Qmake 5 10)
  /\ parseFloat (VStr "1e") = of_Z 1
  /\ parseFloat (VStr "Infinity") = PosInf.
Proof. repeat split; reflexivity. Qed.

Example parseFloat_no_number :
  parseFloat (VStr "") = NaN
  /\ parseFloat (VStr "Natividade") = NaN
  /\ parseFloat (VStr "-") = NaN
  /\ parseFloat VNull = NaN
  /\ parseFloat VUndefined = NaN.
Proof. repeat split; reflexivity. Qed.

Example StringToNumber_whole_string :
  StringToNumber "" = of_Z 0
  /\ StringToNumber "  " = of_Z 0
  /\ StringToNumber " 42 " = of_Z 42
  /\ StringToNumber "12,5" = NaN
  /\ StringToNumber "0x1F" = of_Z 31
  /\ StringToNumber "0x" = NaN
  /\ StringToNumber "1.50" = Fin (Qmake 150 100).
Proof. repeat split; reflexivity. Qed.

Example sort_numbers :
  JS.sort (of_Z <$> [30; 10; 20; 10]%Z) = of_Z <$> [10; 10; 20; 30]%Z.
Proof. reflexivity. Qed.

(** ** Order of numbers *)

Lemma num_le_refl (x : number) : is_NaN x = false -> num_le x x = true.
Proof.
  destruct x as [| |q|]; simpl; try done.
  intros _. apply Qle_bool_iff, Qle_refl.
Qed.

Lemma num_le_trans (x y z : number) :
  num_le x y = true -> num_le y z = true -> num_le x z = true.
Proof.
  destruct x as [| |p|], y as [| |q|], z as [| |r|]; simpl; try done.
  rewrite !Qle_bool_iff. apply Qle_trans.
Qed.

Lemma is_finite_not_NaN (x : number) : is_finite x = true -> is_NaN x = false.
Proof. by destruct x. Qed.


Lemma ascending_cons (x : number) (l : list number) :
  ascending (x :: l) = true ->
  ascending l = true /\ forall y, head l = Some y -> num_le x y = true.
Proof.
  destruct l as [|y l]; simpl; [done|].
  intros [H1 H2]%andb_prop. split; [done|]. by intros ? [= <-].
Qed.

Lemma ascending_head_le (x : number) (l : list number) (j : nat) (y : number) :
  ascending (x :: l) = true -> l !! j = Some y -> num_le x y = true.
Proof.
  revert x j. induction l as [|z l IH]; intros x j Hasc Hj; [done|].
  apply ascending_cons in Hasc as [Hl Hx].
  specialize (Hx z eq_refl).
  destruct j as [|j]; simpl in Hj.
  - by injection Hj as <-.
  - eapply num_le_trans; [exact Hx|]. by eapply IH.
Qed.

Lemma ascending_lookup_lt (l : list number) (i j : nat) (x y : number) :
  ascending l = true -> i < j -> l !! i = Some x -> l !! j = Some y ->
  num_le x y = true.
Proof.
  revert i j. induction l as [|z l IH]; intros i j Hasc Hij Hi Hj; [done|].
  destruct j as [|j]; [lia|]. simpl in Hj.
  destruct i as [|i]; simpl in Hi.
  - injection Hi as <-. by eapply ascending_head_le.
  - apply ascending_cons in Hasc as [Hl _].
    eapply (IH i j); [done|lia|done|done].
Qed.

Lemma ascending_lookup_le (l : list number) (i j : nat) (x y : number) :
  ascending l = true -> Forall (fun v => is_NaN v = false) l ->
  i <= j -> l !! i = Some x -> l !! j = Some y -> num_le x y = true.
Proof.
  intros Hasc Hnan Hij Hi Hj.
  destruct (decide (i = j)) as [->|Hne].
  - rewrite Hi in Hj. injection Hj as <-.
    apply num_le_refl. rewrite Forall_lookup in Hnan. by eapply Hnan.
  - eapply ascending_lookup_lt; [done| |done|done]. lia.
Qed.

Lemma ascending_adjacent (l : list number) :
  (forall j x y, l !! j = Some x -> l !! S j = Some y -> num_le x y = true) ->
  ascending l = true.
Proof.
  induction l as [|x l IH]; intros H; [done|].
  destruct l as [|y l]; [done|].
  change (num_le x y && ascending (y :: l) = true).
  apply andb_true_intro. split.
  - by apply (H 0).
  - apply IH. intros j a b Ha Hb. by apply (H (S j)).
Qed.

(** ** Classifier *)

Lemma foldl_push {A B : Type} (f : B -> A) (l : list B) (acc : list A) :
  foldl (fun breaks i => breaks ++ [f i]) acc l = acc ++ (f <$> l).
Proof.
  revert acc. induction l as [|b l IH]; intros acc; simpl.
  - by rewrite app_nil_r.
  - by rewrite IH, <- app_assoc.
Qed.

Lemma calculateJenks_reads {A : Type} (values : list A) (classes : nat) :
  calculateJenks values classes
  = (fun i => values !! i) <$> readIndices (length values) classes.
Proof.
  unfold calculateJenks, readIndices.
  by rewrite foldl_push, fmap_app, <- list_fmap_compose.
Qed.

Lemma length_readIndices (n classes : nat) :
  1 <= classes -> length (readIndices n classes) = classes.
Proof.
  intros Hk. unfold readIndices.
  rewrite length_app, length_fmap, length_seq. simpl. lia.
Qed.

Lemma step_index_lt (n classes i : nat) :
  1 <= n -> 1 <= i < classes -> i * (n / classes) < n.
Proof.
  intros Hn [Hi Hik].
  pose proof (Nat.Div0.mul_div_le n classes) as Hdiv.
  destruct (decide (n / classes = 0)) as [->|Hpos]; [lia|]. nia.
Qed.

Lemma readIndices_lookup (n classes j i : nat) :
  readIndices n classes !! j = Some i ->
  (j < classes - 1 /\ i = S j * (n / classes)) \/ (j = classes - 1 /\ i = n - 1).
Proof.
  unfold readIndices. intros H.
  apply lookup_app_Some in H as [H|[Hlen H]].
  - left. rewrite list_lookup_fmap in H.
    destruct (seq 1 (classes - 1) !! j) as [m|] eqn:Hm; [|done].
    apply lookup_seq in Hm as [-> Hj]. simpl in H. injection H as <-.
    split; [done|]. done.
  - right. rewrite length_fmap, length_seq in Hlen, H.
    destruct (j - (classes - 1)) as [|m] eqn:Hm; [|by destruct m].
    injection H as <-. lia.
Qed.

Lemma readIndices_bounded (n classes : nat) :
  1 <= n -> 1 <= classes -> Forall (fun i => i < n) (readIndices n classes).
Proof.
  intros Hn Hk. apply Forall_lookup. intros j i Hj.
  apply readIndices_lookup in Hj as [[Hj ->]|[_ ->]]; [|lia].
  apply step_index_lt; lia.
Qed.

Lemma readIndices_monotone (n classes j i i' : nat) :
  1 <= n -> 1 <= classes ->
  readIndices n classes !! j = Some i ->
  readIndices n classes !! S j = Some i' -> i <= i'.
Proof.
  intros Hn Hk Hj Hj'.
  apply readIndices_lookup in Hj as [[Hj ->]|[Hj ->]];
    apply readIndices_lookup in Hj' as [[Hj' ->]|[Hj' ->]]; try lia.
  assert (S j * (n / classes) < n); [|lia].
  apply step_index_lt; lia.
Qed.

Lemma lookup_reads {A : Type} (values : list A) (idx : list nat) (d : A) :
  Forall (fun i => i < length values) idx ->
  (fun i => values !! i) <$> idx
  = Some <$> ((fun i => default d (values !! i)) <$> idx).
Proof.
  intros Hidx. rewrite <- list_fmap_compose.
  apply Forall_fmap_ext_1. eapply Forall_impl; [exact Hidx|].
  intros i Hi. simpl.
  destruct (lookup_lt_is_Some_2 values i Hi) as [x ->]. done.
Qed.

(** The breaks are non-decreasing, end on the last input value and are as
    many as the classes asked for, whatever the numbers read (infinities
    included), as long as none is [NaN]. *)
Lemma calculateJenks_ascending (values : list number) (classes : nat) :
  values <> [] -> 1 <= classes ->
  ascending values = true ->
  Forall (fun v => is_NaN v = false) values ->
  exists breaks : list number,
    calculateJenks values classes = Some <$> breaks
    /\ length breaks = classes
    /\ ascending breaks = true
    /\ last breaks = last values.
Proof.
  intros Hne Hk Hasc Hnan.
  destruct values as [|v0 vs] eqn:Hv; [done|]. rewrite <- Hv in *.
  assert (1 <= length values) as Hn by (rewrite Hv; simpl; lia).
  pose proof (readIndices_bounded (length values) classes Hn Hk) as Hb.
  exists ((fun i => default v0 (values !! i)) <$> readIndices (length values) classes).
  repeat split.
  - rewrite calculateJenks_reads. by apply lookup_reads.
  - rewrite length_fmap. by apply length_readIndices.
  - apply ascending_adjacent. intros j x y Hx Hy.
    rewrite list_lookup_fmap in Hx, Hy.
    destruct (readIndices (length values) classes !! j) as [i|] eqn:Hi; [|done].
    destruct (readIndices (length values) classes !! S j) as [i'|] eqn:Hi'; [|done].
    simpl in Hx, Hy.
    pose proof (readIndices_monotone _ _ _ _ _ Hn Hk Hi Hi') as Hle.
    rewrite Forall_lookup in Hb.
    destruct (lookup_lt_is_Some_2 values i (Hb _ _ Hi)) as [a Ha].
    destruct (lookup_lt_is_Some_2 values i' (Hb _ _ Hi')) as [b Hb'].
    rewrite Ha in Hx. rewrite Hb' in Hy. simpl in Hx, Hy.
    injection Hx as <-. injection Hy as <-.
    by eapply ascending_lookup_le.
  - unfold readIndices. rewrite fmap_app. simpl. rewrite last_snoc.
    rewrite last_lookup.
    replace (pred (length values)) with (length values - 1) by lia.
    destruct (lookup_lt_is_Some_2 values (length values - 1)) as [x ->]; [lia|].
    done.
Qed.

(** C3: for every non-empty ascending sequence of finite numbers and every
    class count [k >= 1], [calculateJenks] returns exactly [k] breaks, all
    of them numbers, in non-decreasing order, the last one being the last
    (largest) input value. *)
Theorem calculateJenks_contract (values : list number) (k : nat) :
  values <> [] ->
  Forall (fun v => is_finite v = true) values ->
  ascending values = true ->
  1 <= k ->
  exists breaks : list number,
    calculateJenks values k = Some <$> breaks
    /\ length breaks = k
    /\ ascending breaks = true
    /\ last breaks = last values.
Proof.
  intros Hne Hfin Hasc Hk.
  apply calculateJenks_ascending; [done|done|done|].
  eapply Forall_impl; [exact Hfin|]. intros v. apply is_finite_not_NaN.
Qed.

Lemma calculateJenks_contract_witness :
  exists breaks : list number,
    calculateJenks (of_Z <$> [3; 8; 8; 21]%Z) 3 = Some <$> breaks
    /\ length breaks = 3
    /\ ascending breaks = true
    /\ last breaks = last (of_Z <$> [3; 8; 8; 21]%Z).
Proof.
  apply (calculateJenks_contract (of_Z <$> [3; 8; 8; 21]%Z) 3).
  - discriminate.
  - repeat constructor.
  - reflexivity.
  - lia.
Defined.

(** C5: on the sorted values 10, 20, ..., 100 with five classes the step
    is 2, the indices read are 2, 4, 6, 8 and 9, and the breaks are
    30, 50, 70, 90, 100. *)
Theorem calculateJenks_scenario :
  calculateJenks (of_Z <$> [10; 20; 30; 40; 50; 60; 70; 80; 90; 100]%Z) 5
  = Some <$> (of_Z <$> [30; 50; 70; 90; 100]%Z)
  /\ readIndices 10 5 = [2; 4; 6; 8; 9].
Proof. split; reflexivity. Qed.

(** C6: whatever the length [n >= 1] of the input and the class count
    [k >= 1], also when [n < k], every index [calculateJenks] reads
    ([i * step] for [i] in [1 .. k-1], then [n - 1]) is below [n]; hence
    no read is out of range and every break is an element of the input. *)
Theorem calculateJenks_in_bounds {A : Type} (values : list A) (k : nat) :
  values <> [] -> 1 <= k ->
  (forall i, 1 <= i < k -> i * (length values / k) < length values)
  /\ length values - 1 < length values
  /\ calculateJenks values k
     = (fun i => values !! i) <$> readIndices (length values) k
  /\ Forall (fun i => i < length values) (readIndices (length values) k)
  /\ Forall (fun b => exists x, b = Some x /\ x ∈ values)
            (calculateJenks values k).
Proof.
  intros Hne Hk.
  assert (1 <= length values) as Hn by (destruct values; [done|simpl; lia]).
  pose proof (readIndices_bounded (length values) k Hn Hk) as Hb.
  split; [|split; [|split; [|split]]].
  - intros i Hi. by apply step_index_lt.
  - lia.
  - apply calculateJenks_reads.
  - exact Hb.
  - rewrite calculateJenks_reads. apply Forall_fmap.
    eapply Forall_impl; [exact Hb|]. intros i Hi. simpl.
    destruct (lookup_lt_is_Some_2 values i Hi) as [x Hx].
    exists x. split; [done|]. by eapply list_elem_of_lookup_2.
Qed.

Lemma calculateJenks_in_bounds_witness :
  (forall i, 1 <= i < 5 -> i * (length [7; 9] / 5) < length [7; 9])
  /\ length [7; 9] - 1 < length [7; 9]
  /\ calculateJenks [7; 9] 5
     = (fun i => [7; 9] !! i) <$> readIndices (length [7; 9]) 5
  /\ Forall (fun i => i < length [7; 9]) (readIndices (length [7; 9]) 5)
  /\ Forall (fun b => exists x, b = Some x /\ x ∈ [7; 9])
            (calculateJenks [7; 9] 5).
Proof.
  apply (calculateJenks_in_bounds [7; 9] 5).
  - discriminate.
  - lia.
Defined.

(** ** Colour mapper *)

(** The loop returns the colour at the first break the value is [<=] to. *)
Lemma getColorForValue_from_first (i0 i : nat) (value : value)
    (breaks : list (option number)) (colors : list string) (b : option number) :
  breaks !! i = Some b ->
  JS.le value b = true ->
  (forall j b', j < i -> breaks !! j = Some b' -> JS.le value b' = false) ->
  getColorForValue_from i0 value breaks colors = colors !! (i0 + i).
Proof.
  revert i0 i. induction breaks as [|b0 rest IH]; intros i0 i Hb Hle Hfirst; [done|].
  destruct i as [|i]; simpl in *.
  - injection Hb as ->. rewrite Hle. by rewrite Nat.add_0_r.
  - rewrite (Hfirst 0 b0); [|lia|done].
    rewrite (IH (S i0) i); [|done|done|].
    + f_equal. lia.
    + intros j b' Hj Hb'. apply (Hfirst (S j)); [lia|done].
Qed.

(** When the value is [<=] to no break the loop falls through to the last
    colour. *)
Lemma getColorForValue_from_none (i0 : nat) (value : value)
    (breaks : list (option number)) (colors : list string) :
  (forall j b', breaks !! j = Some b' -> JS.le value b' = false) ->
  getColorForValue_from i0 value breaks colors = colors !! (length colors - 1).
Proof.
  revert i0. induction breaks as [|b0 rest IH]; intros i0 Hall; [done|].
  simpl. rewrite (Hall 0 b0); [|done].
  apply IH. intros j b' Hb'. by apply (Hall (S j)).
Qed.

(** C4: with [k >= 1] breaks and a palette of the same length,
    [getColorForValue] returns the palette colour at the index of the first
    break the value is [<=] to, the last palette colour when the value is
    above every break, and the colour ['#ccc'], which is none of the five
    colours of the thematic palette, when the value is [undefined], [null]
    or not a number. *)
Theorem getColorForValue_contract (value : value) (breaks : list number)
    (colors : list string) :
  1 <= length breaks ->
  length colors = length breaks ->
  (is_undefined value || is_null value || isNaN value = false ->
   forall i b,
     breaks !! i = Some b ->
     JS.le value (Some b) = true ->
     (forall j b', j < i -> breaks !! j = Some b' -> JS.le value (Some b') = false) ->
     exists c, colors !! i = Some c
               /\ getColorForValue value (Some <$> breaks) colors = Some c)
  /\ (is_undefined value || is_null value || isNaN value = false ->
      (forall j b', breaks !! j = Some b' -> JS.le value (Some b') = false) ->
      exists c, last colors = Some c
                /\ getColorForValue value (Some <$> breaks) colors = Some c)
  /\ (value = VUndefined \/ value = VNull \/ isNaN value = true ->
      getColorForValue value (Some <$> breaks) colors = Some "#ccc")
  /\ "#ccc" ∉ thematicPalette.
Proof.
  intros Hk Hlen. split; [|split; [|split]].
  - intros Hdata i b Hb Hle Hfirst.
    destruct (lookup_lt_is_Some_2 colors i) as [c Hc].
    { rewrite Hlen. by eapply lookup_lt_Some. }
    exists c. split; [done|].
    unfold getColorForValue. rewrite Hdata, <- Hc.
    apply (getColorForValue_from_first 0 i value _ colors (Some b)).
    + by rewrite list_lookup_fmap, Hb.
    + done.
    + intros j b' Hj Hb'. rewrite list_lookup_fmap in Hb'.
      destruct (breaks !! j) as [x|] eqn:Hx; [|done].
      injection Hb' as <-. by eapply Hfirst.
  - intros Hdata Hall.
    destruct (lookup_lt_is_Some_2 colors (length colors - 1)) as [c Hc]; [lia|].
    exists c. rewrite last_lookup.
    replace (pred (length colors)) with (length colors - 1) by lia.
    split; [done|].
    unfold getColorForValue. rewrite Hdata, <- Hc.
    apply getColorForValue_from_none.
    intros j b' Hb'. rewrite list_lookup_fmap in Hb'.
    destruct (breaks !! j) as [x|] eqn:Hx; [|done].
    injection Hb' as <-. by eapply Hall.
  - intros Hno. unfold getColorForValue.
    destruct Hno as [->|[->|Hnan]]; [done|done|].
    rewrite Hnan. by rewrite orb_true_r.
  - unfold thematicPalette. intros Hin.
    repeat (apply elem_of_cons in Hin as [Hin|Hin]; [discriminate Hin|]).
    by apply elem_of_nil in Hin.
Qed.

Lemma getColorForValue_contract_witness :
  let breaks := of_Z <$> [30; 50; 70; 90; 100]%Z in
  getColorForValue (VNum (of_Z 45)) (Some <$> breaks) thematicPalette
  = Some "#fecc5c"
  /\ getColorForValue (VNum (of_Z 150)) (Some <$> breaks) thematicPalette
     = Some "#bd0026"
  /\ getColorForValue VNull (Some <$> breaks) thematicPalette = Some "#ccc".
Proof.
  intros breaks.
  assert (1 <= length breaks) as Hk by (simpl; lia).
  assert (length thematicPalette = length breaks) as Hlen by reflexivity.
  split; [|split].
  - destruct (getColorForValue_contract (VNum (of_Z 45)) breaks thematicPalette
                Hk Hlen) as (Hfirst & _).
    destruct (Hfirst eq_refl 1 (of_Z 50) eq_refl eq_refl) as (c & Hc & ->).
    + intros j b' Hj Hb'. destruct j as [|j]; [|lia].
      injection Hb' as <-. reflexivity.
    + symmetry. exact Hc.
  - destruct (getColorForValue_contract (VNum (of_Z 150)) breaks thematicPalette
                Hk Hlen) as (_ & Habove & _).
    destruct (Habove eq_refl) as (c & Hc & ->).
    + intros j b' Hb'.
      do 5 (destruct j as [|j]; [injection Hb' as <-; reflexivity|]).
      discriminate Hb'.
    + symmetry. exact Hc.
  - destruct (getColorForValue_contract VNull breaks thematicPalette
                Hk Hlen) as (_ & _ & Hno & _).
    apply Hno. right. left. reflexivity.
Defined.

(** ** Legend *)

Lemma updateLegend_from_numbers (i : nat) (start : number)
    (breaks : list number) (colors : list string) (content : list legendItem) :
  updateLegend_from i start (Some <$> breaks) colors content
  = (content ++ entries_from i start breaks colors, true).
Proof.
  revert i start content.
  induction breaks as [|b rest IH]; intros i start content; simpl.
  - by rewrite app_nil_r.
  - by rewrite IH, <- app_assoc.
Qed.

Lemma length_entries_from (i : nat) (start : number) (breaks : list number)
    (colors : list string) :
  length (entries_from i start breaks colors) = length breaks.
Proof.
  revert i start. induction breaks as [|b rest IH]; intros i start; simpl; [done|].
  by rewrite IH.
Qed.

Lemma entries_from_lookup (i : nat) (start : number) (breaks : list number)
    (colors : list string) (j : nat) (b : number) :
  breaks !! j = Some b ->
  entries_from i start breaks colors !! j
  = Some {| swatch := colors !! (i + j);
            range_start := match j with
                           | 0 => start
                           | S j' => default start (breaks !! j')
                           end;
            range_end := b |}.
Proof.
  revert i start j. induction breaks as [|b0 rest IH]; intros i start j Hj; [done|].
  destruct j as [|j]; simpl in *.
  - injection Hj as ->. by rewrite Nat.add_0_r.
  - rewrite (IH (S i) b0 j Hj).
    replace (S i + j) with (i + S j) by lia.
    destruct j as [|j]; [done|]. simpl.
    destruct (lookup_lt_is_Some_2 rest j) as [x ->]; [|done].
    apply lookup_lt_Some in Hj. lia.
Qed.

(** C7: for [k] breaks and a palette of the same length, [updateLegend]
    shows the legend with exactly one entry per class; entry [i] runs from
    the previous break (from 0 for the first entry, whatever the smallest
    value is) to [breaks[i]] and carries the colour [colors[i]]. *)
Theorem updateLegend_entries (attribute : string) (breaks : list number)
    (colors : list string) (st : app) :
  length colors = length breaks ->
  exists st',
    updateLegend attribute (Some <$> breaks) colors st = Normal st'
    /\ display (legendContainer st') = "block"
    /\ title (legendContainer st') = "Legenda: " +:+ attribute
    /\ length (content (legendContainer st')) = length breaks
    /\ forall i b,
         breaks !! i = Some b ->
         exists c,
           colors !! i = Some c
           /\ content (legendContainer st') !! i
              = Some {| swatch := Some c;
                        range_start := match i with
                                       | 0 => of_Z 0
                                       | S j => default (of_Z 0) (breaks !! j)
                                       end;
                        range_end := b |}.
Proof.
  intros Hlen. unfold updateLegend.
  rewrite updateLegend_from_numbers. simpl.
  eexists. split; [reflexivity|]. simpl.
  split; [done|]. split; [done|]. split.
  - apply length_entries_from.
  - intros i b Hb.
    destruct (lookup_lt_is_Some_2 colors i) as [c Hc].
    { rewrite Hlen. by eapply lookup_lt_Some. }
    exists c. split; [done|].
    rewrite (entries_from_lookup 0 (of_Z 0) breaks colors i b Hb).
    simpl. by rewrite Hc.
Qed.

Lemma updateLegend_entries_witness :
  let st := {| dataLayers := []; currentThematicAttribute := None;
               thematicBreaks := []; thematicColors := [];
               legendContainer := {| display := "none"; title := ""; content := [] |};
               loadingHidden := true; alerts := [] |} in
  let breaks := of_Z <$> [12; 40]%Z in
  let colors := ["#ffffb2"; "#bd0026"] in
  exists st',
    updateLegend "v0001" (Some <$> breaks) colors st = Normal st'
    /\ content (legendContainer st')
       = [ {| swatch := Some "#ffffb2"; range_start := of_Z 0; range_end := of_Z 12 |};
           {| swatch := Some "#bd0026"; range_start := of_Z 12; range_end := of_Z 40 |} ].
Proof.
  intros st breaks colors.
  destruct (updateLegend_entries "v0001" breaks colors st eq_refl)
    as (st' & Hrun & _ & _ & _ & _).
  exists st'. split; [exact Hrun|].
  vm_compute in Hrun. injection Hrun as <-. reflexivity.
Defined.

(** ** Layer groups *)

Lemma entry_eachLayer (name : string) (f : featureLayer -> featureLayer)
    (d : list (string * list featureLayer)) :
  entry name (eachLayer name f d)
  = (fun group : list featureLayer => f <$> group) <$> entry name d.
Proof.
  induction d as [|[k g] d IH]; simpl; [done|].
  destruct (decide (k = name)) as [->|Hne]; simpl.
  - by rewrite decide_True.
  - by rewrite decide_False.
Qed.

Lemma entry_with_layer (name : string) (target : nat)
    (f : featureLayer -> featureLayer) (d : list (string * list featureLayer)) :
  entry name (with_layer target f d)
  = (fun group : list featureLayer =>
       (fun layer => if is_layer target layer then f layer else layer) <$> group)
    <$> entry name d.
Proof.
  induction d as [|[k g] d IH]; simpl; [done|].
  destruct (decide (k = name)) as [->|Hne]; [done|exact IH].
Qed.

Lemma existsb_is_layer_fmap (target : nat) (f : featureLayer -> featureLayer)
    (g : list featureLayer) :
  (forall layer, leaflet_id (f layer) = leaflet_id layer) ->
  existsb (is_layer target) (f <$> g) = existsb (is_layer target) g.
Proof.
  intros Hid. induction g as [|layer g IH]; [done|].
  rewrite fmap_cons. cbn [existsb]. rewrite IH.
  unfold is_layer. by rewrite Hid.
Qed.


Lemma getLayerName_with_layer (target t : nat)
    (f : featureLayer -> featureLayer) (d : list (string * list featureLayer)) :
  (forall layer, leaflet_id (f layer) = leaflet_id layer) ->
  getLayerName target (with_layer t f d) = getLayerName target d.
Proof.
  intros Hid. induction d as [|[k g] d IH]; simpl; [done|].
  rewrite existsb_is_layer_fmap, IH; [done|].
  intros layer. by destruct (is_layer t layer).
Qed.

Lemma setStyle_setStyle (style : gmap string value) (layer : featureLayer) :
  setStyle style (setStyle style layer) = setStyle style layer.
Proof.
  unfold setStyle. simpl. f_equal.
  by rewrite (assoc_L (∪)), (idemp_L (∪)).
Qed.

Lemma styleOf_setStyle (key : string) (style : gmap string value)
    (layer : featureLayer) (v : value) :
  style !! key = Some v -> styleOf key (setStyle style layer) = v.
Proof.
  intros Hv. unfold styleOf, get, setStyle. simpl.
  by rewrite (lookup_union_Some_l _ _ _ _ Hv).
Qed.

Lemma styleOf_setStyle_other (key : string) (style : gmap string value)
    (layer : featureLayer) :
  style !! key = None -> styleOf key (setStyle style layer) = styleOf key layer.
Proof.
  intros Hv. unfold styleOf, get, setStyle. simpl.
  by rewrite (lookup_union_r _ _ _ Hv).
Qed.

(** ** Sorting *)

Lemma length_sort_insert (x : number) (l : list number) :
  length (sort_insert x l) = S (length l).
Proof.
  induction l as [|y l IH]; simpl; [done|].
  destruct (sub_pos y x); simpl; [done|]. by rewrite IH.
Qed.

Lemma length_sort (l : list number) : length (JS.sort l) = length l.
Proof.
  unfold JS.sort.
  enough (forall acc, length (foldl (fun acc x => sort_insert x acc) acc l)
                      = length acc + length l) as H by (by rewrite H).
  induction l as [|x l IH]; intros acc; simpl; [lia|].
  rewrite IH, length_sort_insert. lia.
Qed.

Lemma sub_pos_false (x y : number) :
  is_NaN x = false -> is_NaN y = false ->
  sub_pos y x = false -> num_le y x = true.
Proof.
  destruct x as [| |p|], y as [| |q|]; simpl; try done.
  intros _ _. by destruct (Qle_bool q p).
Qed.

Lemma sub_pos_true (x y : number) : sub_pos y x = true -> num_le x y = true.
Proof.
  destruct x as [| |p|], y as [| |q|]; simpl; try done.
  intros H. apply negb_true_iff in H.
  apply Qle_bool_iff. apply Qlt_le_weak, Qnot_le_lt.
  intros Hle. apply Qle_bool_iff in Hle. congruence.
Qed.

Lemma sort_insert_ascending (x : number) (l : list number) :
  is_NaN x = false -> Forall (fun v => is_NaN v = false) l ->
  ascending l = true -> ascending (sort_insert x l) = true.
Proof.
  intros Hx Hl Hasc. induction l as [|y l IH]; [done|].
  simpl. destruct (sub_pos y x) eqn:Hyx.
  - change (num_le x y && ascending (y :: l) = true).
    by rewrite (sub_pos_true x y Hyx).
  - apply Forall_cons in Hl as [Hy Hl].
    apply ascending_cons in Hasc as [Hasc Hhead].
    specialize (IH Hl Hasc).
    destruct l as [|z l]; simpl in *.
    + by rewrite (sub_pos_false x y Hx Hy Hyx).
    + destruct (sub_pos z x).
      * by rewrite (sub_pos_false x y Hx Hy Hyx).
      * by rewrite (Hhead z eq_refl).
Qed.

Lemma sort_insert_not_NaN (x : number) (l : list number) :
  is_NaN x = false -> Forall (fun v => is_NaN v = false) l ->
  Forall (fun v => is_NaN v = false) (sort_insert x l).
Proof.
  intros Hx Hl. induction Hl as [|y l Hy Hl IH]; simpl.
  - by constructor.
  - destruct (sub_pos y x); repeat constructor; done.
Qed.

(** [sort] leaves the numbers in ascending order. *)
Lemma sort_ascending (l : list number) :
  Forall (fun v => is_NaN v = false) l ->
  ascending (JS.sort l) = true
  /\ Forall (fun v => is_NaN v = false) (JS.sort l).
Proof.
  unfold JS.sort. intros Hl.
  enough (forall acc,
            ascending acc = true -> Forall (fun v => is_NaN v = false) acc ->
            ascending (foldl (fun acc x => sort_insert x acc) acc l) = true
            /\ Forall (fun v => is_NaN v = false)
                      (foldl (fun acc x => sort_insert x acc) acc l)) as H.
  { by apply H. }
  induction Hl as [|x l Hx Hl IH]; intros acc Hasc Hacc; simpl; [done|].
  apply IH.
  - by apply sort_insert_ascending.
  - by apply sort_insert_not_NaN.
Qed.

Lemma extractValues_not_NaN (attribute : string) (layers : list featureLayer) :
  Forall (fun v => is_NaN v = false) (extractValues attribute layers).
Proof.
  induction layers as [|layer rest IH]; simpl; [constructor|].
  destruct (is_NaN (parseFloat (get (properties layer) attribute))) eqn:Hnan;
    simpl; [done|]. by constructor.
Qed.

(** ** Thematic controller: what [applyThematicMapping] does *)

Lemma applyThematicMapping_not_loaded (attribute : string) (st : app) :
  entry "setores" (dataLayers st) = None ->
  applyThematicMapping attribute st = Normal st.
Proof. intros H. unfold applyThematicMapping. by rewrite H. Qed.

(** No value coerces: the user is told, nothing is restyled, the legend
    and the stored breaks and palette stay; the attribute name, written
    before the values are looked at, is the new one. *)
Lemma applyThematicMapping_no_data (attribute : string) (st : app)
    (setores : list featureLayer) :
  entry "setores" (dataLayers st) = Some setores ->
  extractValues attribute setores = [] ->
  applyThematicMapping attribute st
  = Normal
      {| dataLayers := dataLayers st;
         currentThematicAttribute := Some attribute;
         thematicBreaks := thematicBreaks st;
         thematicColors := thematicColors st;
         legendContainer := legendContainer st;
         loadingHidden := true;
         alerts :=
           alerts st ++ ["Não há dados numéricos válidos para este atributo."] |}.
Proof.
  intros Hs Hv. unfold applyThematicMapping. rewrite Hs. simpl.
  by rewrite Hv.
Qed.

(** Some value coerces: five ascending breaks are stored with the palette,
    every census sector is restyled, the legend is drawn, and the handler
    ends normally. *)
Lemma applyThematicMapping_success (attribute : string) (st : app)
    (setores : list featureLayer) :
  entry "setores" (dataLayers st) = Some setores ->
  extractValues attribute setores <> [] ->
  exists breaks : list number,
    calculateJenks (JS.sort (extractValues attribute setores)) 5
    = Some <$> breaks
    /\ length breaks = 5
    /\ ascending breaks = true
    /\ applyThematicMapping attribute st
       = Normal
           {| dataLayers :=
                eachLayer "setores"
                  (applyStyle attribute (Some <$> breaks) thematicPalette)
                  (dataLayers st);
              currentThematicAttribute := Some attribute;
              thematicBreaks := Some <$> breaks;
              thematicColors := thematicPalette;
              legendContainer :=
                {| display := "block";
                   title := "Legenda: " +:+ attribute;
                   content := entries_from 0 (of_Z 0) breaks thematicPalette |};
              loadingHidden := true;
              alerts := alerts st |}.
Proof.
  intros Hs Hv.
  pose proof (extractValues_not_NaN attribute setores) as Hnan.
  destruct (sort_ascending _ Hnan) as [Hasc Hnan'].
  destruct (calculateJenks_ascending (JS.sort (extractValues attribute setores)) 5)
    as (breaks & Hbreaks & Hlen & Hbasc & _); [|lia|done|done|].
  { intros Hnil. apply (f_equal length) in Hnil.
    rewrite length_sort in Hnil. by destruct (extractValues attribute setores). }
  exists breaks. split; [done|]. split; [done|]. split; [done|].
  unfold applyThematicMapping. rewrite Hs. simpl.
  destruct (extractValues attribute setores) as [|v vs] eqn:Hvals; [done|].
  cbn [length Nat.eqb]. rewrite Hbreaks.
  unfold updateLegend. simpl.
  rewrite updateLegend_from_numbers. reflexivity.
Qed.

(** C1: a failed apply is not a no-op on the thematic state.  On the map
    coloured by v0001, applying NM_MUN (a name in every sector, a number in
    none) alerts the user, restyles nothing and leaves legend, breaks and
    palette alone, but the active attribute is now NM_MUN: the breaks of
    v0001 are then read against NM_MUN, and the next hover over sector 2
    paints it with the no-data colour. *)
Theorem applyThematicMapping_no_data_overwrites_attribute :
  let st' := state_of (applyThematicMapping "NM_MUN" mapped) in
  (entry "setores" (dataLayers mapped) ≫= fun setores =>
     Some (extractValues "NM_MUN" setores)) = Some []
  /\ alerts st' = ["Não há dados numéricos válidos para este atributo."]
  /\ dataLayers st' = dataLayers mapped
  /\ legendContainer st' = legendContainer mapped
  /\ thematicBreaks st' = thematicBreaks mapped
  /\ thematicColors st' = thematicColors mapped
  /\ currentThematicAttribute mapped = Some "v0001"
  /\ currentThematicAttribute st' = Some "NM_MUN"
  /\ styleOf "fillColor" <$> setoresLayer 0 mapped = Some (VStr "#ffffb2")
  /\ styleOf "fillColor"
     <$> setoresLayer 0 (resetHighlight 2 (highlightFeatureFixed 2 st'))
     = Some (VStr "#ccc").
Proof. vm_compute. repeat split; reflexivity. Qed.

(** ** Thematic controller: reset *)

Lemma resetThematicMapping_loaded (st : app) (setores : list featureLayer) :
  entry "setores" (dataLayers st) = Some setores ->
  resetThematicMapping st
  = {| dataLayers :=
         eachLayer "setores" (setStyle (getFeatureStyle "#f093fb")) (dataLayers st);
       currentThematicAttribute := None;
       thematicBreaks := thematicBreaks st;
       thematicColors := thematicColors st;
       legendContainer :=
         {| display := "none";
            title := title (legendContainer st);
            content := content (legendContainer st) |};
       loadingHidden := loadingHidden st;
       alerts := alerts st |}.
Proof. intros Hs. unfold resetThematicMapping. by rewrite Hs. Qed.

Lemma eachLayer_idemp (name : string) (f : featureLayer -> featureLayer)
    (d : list (string * list featureLayer)) :
  (forall layer, f (f layer) = f layer) ->
  eachLayer name f (eachLayer name f d) = eachLayer name f d.
Proof.
  intros Hf. induction d as [|[k g] d IH]; simpl; [done|].
  destruct (decide (k = name)) as [->|Hne]; simpl.
  - rewrite decide_True by done. f_equal. f_equal.
    rewrite <- list_fmap_compose. apply list_fmap_ext. intros ? layer _. apply Hf.
  - rewrite decide_False by done. by rewrite IH.
Qed.




(** C9: a second reset changes nothing: the state after two resets is the
    state after one (same styles, same thematic state, same legend), and
    with the census sectors loaded the legend is hidden in both. *)
Theorem resetThematicMapping_idempotent (st : app) :
  resetThematicMapping (resetThematicMapping st) = resetThematicMapping st
  /\ (entry "setores" (dataLayers st) <> None ->
      display (legendContainer (resetThematicMapping st)) = "none"
      /\ display (legendContainer (resetThematicMapping (resetThematicMapping st)))
         = "none").
Proof.
  destruct (entry "setores" (dataLayers st)) as [setores|] eqn:He.
  - rewrite (resetThematicMapping_loaded st setores He).
    erewrite resetThematicMapping_loaded by (simpl; rewrite entry_eachLayer, He; done).
    simpl. split; [|done].
    f_equal. apply eachLayer_idemp. intros layer. apply setStyle_setStyle.
  - split; [|done]. unfold resetThematicMapping. rewrite He.
    unfold resetThematicMapping. by rewrite He.
Qed.

Lemma resetThematicMapping_idempotent_witness :
  resetThematicMapping (resetThematicMapping mapped) = resetThematicMapping mapped
  /\ display (legendContainer (resetThematicMapping mapped)) = "none"
  /\ display (legendContainer (resetThematicMapping (resetThematicMapping mapped)))
     = "none".
Proof.
  destruct (resetThematicMapping_idempotent mapped) as [Hsame Hhidden].
  split; [exact Hsame|]. apply Hhidden. vm_compute. discriminate.
Defined.

(** ** Hover *)

Lemma truthy_Some (s : string) : s <> "" -> truthy (Some s) = true.
Proof.
  intros Hs. simpl. apply negb_true_iff. by apply String.eqb_neq.
Qed.

Lemma is_layer_own (layer : featureLayer) : is_layer (leaflet_id layer) layer = true.
Proof. apply Nat.eqb_refl. Qed.

(** What [resetHighlight] leaves at position [i] of the census-sector group
    when the target is the layer found there. *)
Lemma setoresLayer_resetHighlight (st : app) (i : nat) (layer : featureLayer) :
  setoresLayer i st = Some layer ->
  setoresLayer i (resetHighlight (leaflet_id layer) st)
  = Some (restoreStyle st (getLayerName (leaflet_id layer) (dataLayers st)) layer).
Proof.
  unfold setoresLayer, resetHighlight. simpl. intros Hl.
  rewrite entry_with_layer.
  destruct (entry "setores" (dataLayers st)) as [group|]; [|done]. simpl in *.
  rewrite list_lookup_fmap, Hl. simpl. by rewrite is_layer_own.
Qed.

Lemma restoreStyle_thematic (st : app) (attribute : string) (layer : featureLayer) :
  currentThematicAttribute st = Some attribute -> attribute <> "" ->
  restoreStyle st (Some "setores") layer
  = setStyle
      (list_to_map
         [ ("fillColor",
            color_value (getColorForValue (get (properties layer) attribute)
                                          (thematicBreaks st) (thematicColors st)));
           ("weight", dec 1 1);
           ("opacity", dec 1 1);
           ("color", VStr "#000000");
           ("fillOpacity", dec 7 10) ])
      layer.
Proof.
  intros Ha Hne. unfold restoreStyle.
  by rewrite Ha, (truthy_Some attribute Hne).
Qed.

(** C8: with a thematic attribute active (a non-empty name stored), the end
    of a hover over a census-sector layer gives it the thematic restore
    style, whose fill colour is [getColorForValue] of the layer's value of
    the active attribute against the stored breaks and palette; the layer
    does not get [getFeatureStyle] of the configured colour. *)
Theorem resetHighlight_thematic (st : app) (attribute : string) (i : nat)
    (layer : featureLayer) :
  currentThematicAttribute st = Some attribute ->
  attribute <> "" ->
  setoresLayer i st = Some layer ->
  getLayerName (leaflet_id layer) (dataLayers st) = Some "setores" ->
  let color :=
    getColorForValue (get (properties layer) attribute)
                     (thematicBreaks st) (thematicColors st) in
  exists restored,
    setoresLayer i (resetHighlight (leaflet_id layer) st) = Some restored
    /\ styleOf "fillColor" restored = color_value color
    /\ restored
       = setStyle
           (list_to_map
              [ ("fillColor", color_value color);
                ("weight", dec 1 1);
                ("opacity", dec 1 1);
                ("color", VStr "#000000");
                ("fillOpacity", dec 7 10) ])
           layer
    /\ styleOf "fillOpacity" restored <> styleOf "fillOpacity"
         (setStyle (getFeatureStyle "#f093fb") layer).
Proof.
  intros Ha Hne Hl Hname color.
  eexists. split.
  { rewrite (setoresLayer_resetHighlight st i layer Hl), Hname.
    by rewrite (restoreStyle_thematic st attribute layer Ha Hne). }
  split; [by apply styleOf_setStyle|]. split; [done|].
  rewrite (styleOf_setStyle "fillOpacity" _ layer (dec 7 10)) by done.
  rewrite (styleOf_setStyle "fillOpacity" _ layer (dec 3 10)) by done.
  discriminate.
Qed.

Lemma resetHighlight_thematic_witness :
  exists restored,
    setoresLayer 2 (resetHighlight 4 mapped) = Some restored
    /\ styleOf "fillColor" restored = VStr "#bd0026".
Proof.
  destruct (resetHighlight_thematic mapped "v0001" 2
              (applyStyle "v0001" (thematicBreaks mapped) (thematicColors mapped)
                 (polygon 4 "#f093fb"
                    [("NM_MUN", VStr "Natividade"); ("v0001", VNum (of_Z 30))])))
    as (restored & Hrun & Hfill & _).
  - reflexivity.
  - discriminate.
  - reflexivity.
  - reflexivity.
  - exists restored. split; [exact Hrun|]. rewrite Hfill. reflexivity.
Defined.


Lemma leaflet_id_highlightStyle (layer : featureLayer) :
  leaflet_id (highlightStyle layer) = leaflet_id layer.
Proof. unfold highlightStyle. by destruct (isCircleMarker layer). Qed.



Lemma getLayerName_highlightFeatureFixed (st : app) (target t : nat) :
  getLayerName target (dataLayers (highlightFeatureFixed t st))
  = getLayerName target (dataLayers st).
Proof.
  unfold highlightFeatureFixed. simpl.
  apply getLayerName_with_layer. intros layer. apply leaflet_id_highlightStyle.
Qed.





(** * Further properties of the thematic engine *)

(** ** Completion *)



(** ** What styling leaves alone *)

Lemma storeData_eachLayer (name : string) (f : featureLayer -> featureLayer)
    (d : list (string * list featureLayer)) :
  (forall layer, layerData (f layer) = layerData layer) ->
  storeData (eachLayer name f d) = storeData d.
Proof.
  intros Hf. unfold storeData.
  induction d as [|[k g] d IH]; simpl; [done|].
  destruct (decide (k = name)) as [->|Hne].
  - rewrite fmap_cons. simpl. f_equal. f_equal.
    rewrite <- list_fmap_compose. apply list_fmap_ext. intros ? layer _. apply Hf.
  - rewrite fmap_cons. simpl. f_equal. exact IH.
Qed.

Lemma storeData_with_layer (target : nat) (f : featureLayer -> featureLayer)
    (d : list (string * list featureLayer)) :
  (forall layer, layerData (f layer) = layerData layer) ->
  storeData (with_layer target f d) = storeData d.
Proof.
  intros Hf. unfold storeData, with_layer.
  rewrite <- list_fmap_compose. apply list_fmap_ext. intros ? [k g] _. simpl.
  f_equal. rewrite <- list_fmap_compose. apply list_fmap_ext. intros ? layer _.
  simpl. destruct (is_layer target layer); [apply Hf|done].
Qed.

Lemma layerData_restoreStyle (st : app) (name : option string)
    (layer : featureLayer) :
  layerData (restoreStyle st name layer) = layerData layer.
Proof.
  unfold restoreStyle.
  destruct (truthy (currentThematicAttribute st)
            && bool_decide (name = Some "setores")); [done|].
  destruct (name ≫= _) as [config|]; [|done].
  destruct (isCircleMarker layer) eqn:Hc.
  - unfold layerData. simpl. by rewrite Hc.
  - destruct (bool_decide (name = Some "distritos")); done.
Qed.

Lemma layerData_highlightStyle (layer : featureLayer) :
  layerData (highlightStyle layer) = layerData layer.
Proof.
  unfold highlightStyle, layerData.
  destruct (isCircleMarker layer) eqn:Hc; simpl; by rewrite Hc.
Qed.

Lemma storeData_dispatch (e : event) (st : app) :
  storeData (dataLayers (state_of (dispatch e st))) = storeData (dataLayers st).
Proof.
  destruct e as [attribute| |target|target]; simpl.
  - destruct (entry "setores" (dataLayers st)) as [setores|] eqn:Hs.
    + destruct (extractValues attribute setores) as [|v vs] eqn:Hv.
      * by rewrite (applyThematicMapping_no_data attribute st setores).
      * destruct (applyThematicMapping_success attribute st setores Hs)
          as (breaks & _ & _ & _ & ->); [by rewrite Hv|]. simpl.
        by apply storeData_eachLayer.
    + by rewrite applyThematicMapping_not_loaded.
  - destruct (entry "setores" (dataLayers st)) as [setores|] eqn:Hs.
    + rewrite (resetThematicMapping_loaded st setores Hs). simpl.
      by apply storeData_eachLayer.
    + unfold resetThematicMapping. by rewrite Hs.
  - apply storeData_with_layer, layerData_highlightStyle.
  - apply storeData_with_layer, layerData_restoreStyle.
Qed.

(** X2: no sequence of apply, reset and hover events changes what the
    layers are: the groups, their order, and each layer's stamp, kind and
    attributes stay as loaded; only styles move. *)
Theorem run_keeps_layer_data (events : list event) (st : app) :
  storeData (dataLayers (run events st)) = storeData (dataLayers st).
Proof.
  unfold run. revert st. induction events as [|e events IH]; intros st; [done|].
  cbn [foldl]. rewrite IH. apply storeData_dispatch.
Qed.

Lemma entry_eachLayer_ne (name name' : string) (f : featureLayer -> featureLayer)
    (d : list (string * list featureLayer)) :
  name <> name' -> entry name' (eachLayer name f d) = entry name' d.
Proof.
  intros Hne. induction d as [|[k g] d IH]; simpl; [done|].
  destruct (decide (k = name)) as [->|Hk]; simpl.
  - by rewrite !decide_False.
  - by rewrite IH.
Qed.

(** X3: apply and reset style census sectors only: the layers of any other
    group are exactly what they were, style included. *)
Theorem thematic_mapping_only_styles_setores (name attribute : string) (st : app) :
  name <> "setores" ->
  entry name (dataLayers (state_of (applyThematicMapping attribute st)))
  = entry name (dataLayers st)
  /\ entry name (dataLayers (resetThematicMapping st))
     = entry name (dataLayers st).
Proof.
  intros Hne. split.
  - destruct (entry "setores" (dataLayers st)) as [setores|] eqn:Hs.
    + destruct (extractValues attribute setores) as [|v vs] eqn:Hv.
      * by rewrite (applyThematicMapping_no_data attribute st setores).
      * destruct (applyThematicMapping_success attribute st setores Hs)
          as (breaks & _ & _ & _ & ->); [by rewrite Hv|]. simpl.
        by apply entry_eachLayer_ne.
    + by rewrite applyThematicMapping_not_loaded.
  - destruct (entry "setores" (dataLayers st)) as [setores|] eqn:Hs.
    + rewrite (resetThematicMapping_loaded st setores Hs). simpl.
      by apply entry_eachLayer_ne.
    + unfold resetThematicMapping. by rewrite Hs.
Qed.

Lemma thematic_mapping_only_styles_setores_witness :
  entry "distritos" (dataLayers (state_of (applyThematicMapping "v0001" startup)))
  = entry "distritos" (dataLayers startup)
  /\ entry "distritos" (dataLayers (resetThematicMapping startup))
     = entry "distritos" (dataLayers startup).
Proof.
  apply (thematic_mapping_only_styles_setores "distritos" "v0001" startup).
  discriminate.
Defined.

(** ** Styles written over styles *)

Lemma union_absorb (s1 s2 o : gmap string value) :
  dom s1 ⊆ dom s2 -> s2 ∪ (s1 ∪ o) = s2 ∪ o.
Proof.
  intros Hdom. apply map_eq. intros k. rewrite !lookup_union.
  destruct (s2 !! k) as [v|] eqn:H2; [by destruct (s1 !! k), (o !! k)|].
  assert (s1 !! k = None) as ->; [|by destruct (o !! k)].
  apply not_elem_of_dom. apply not_elem_of_dom in H2. set_solver.
Qed.

Lemma setStyle_absorb (s1 s2 : gmap string value) (layer : featureLayer) :
  dom s1 ⊆ dom s2 -> setStyle s2 (setStyle s1 layer) = setStyle s2 layer.
Proof.
  intros Hdom. unfold setStyle. simpl. f_equal. by apply union_absorb.
Qed.

Lemma dom_list_to_map_covered (l1 l2 : list (string * value)) :
  forallb (fun k => bool_decide (k ∈ l2.*1)) (l1.*1) = true ->
  dom (list_to_map l1 : gmap string value) ⊆ dom (list_to_map l2 : gmap string value).
Proof.
  intros Hall. rewrite !dom_list_to_map_L. intros k Hk.
  apply elem_of_list_to_set. apply elem_of_list_to_set in Hk.
  rewrite forallb_forall in Hall.
  apply list_elem_of_In, Hall in Hk. by apply bool_decide_eq_true in Hk.
Qed.

Lemma eachLayer_compose (name : string) (f g : featureLayer -> featureLayer)
    (d : list (string * list featureLayer)) :
  eachLayer name g (eachLayer name f d) = eachLayer name (fun l => g (f l)) d.
Proof.
  induction d as [|[k group] d IH]; simpl; [done|].
  destruct (decide (k = name)) as [->|Hne]; simpl.
  - rewrite decide_True by done. by rewrite <- list_fmap_compose.
  - rewrite decide_False by done. by rewrite IH.
Qed.

Lemma eachLayer_ext (name : string) (f g : featureLayer -> featureLayer)
    (d : list (string * list featureLayer)) :
  (forall layer, f layer = g layer) -> eachLayer name f d = eachLayer name g d.
Proof.
  intros Hfg. induction d as [|[k group] d IH]; simpl; [done|].
  destruct (decide (k = name)) as [->|Hne].
  - f_equal. f_equal. apply list_fmap_ext. intros ? layer _. apply Hfg.
  - by rewrite IH.
Qed.

Lemma extractValues_fmap (attribute : string) (f : featureLayer -> featureLayer)
    (layers : list featureLayer) :
  (forall layer, properties (f layer) = properties layer) ->
  extractValues attribute (f <$> layers) = extractValues attribute layers.
Proof.
  intros Hf. induction layers as [|layer rest IH]; [done|].
  rewrite fmap_cons. simpl. by rewrite Hf, IH.
Qed.

Lemma applyStyle_applyStyle (a b : string) (breaks breaks' : list (option number))
    (colors colors' : list string) (layer : featureLayer) :
  applyStyle b breaks' colors' (applyStyle a breaks colors layer)
  = applyStyle b breaks' colors' layer.
Proof.
  unfold applyStyle. cbn [properties setStyle].
  apply setStyle_absorb, dom_list_to_map_covered. reflexivity.
Qed.

(** X4: a successful apply does not show through the next one: applying
    [b] right after [a] ends in the state applying [b] alone ends in
    (styles, thematic state, legend), when both attributes have data.  In
    particular applying the same attribute twice is applying it once. *)
Theorem apply_after_apply (a b : string) (st : app)
    (setores : list featureLayer) :
  entry "setores" (dataLayers st) = Some setores ->
  extractValues a setores <> [] ->
  extractValues b setores <> [] ->
  applyThematicMapping b (state_of (applyThematicMapping a st))
  = applyThematicMapping b st.
Proof.
  intros Hs Ha Hb.
  destruct (applyThematicMapping_success a st setores Hs Ha)
    as (breaksA & _ & _ & _ & ->).
  destruct (applyThematicMapping_success b st setores Hs Hb)
    as (breaksB & HB & _ & _ & ->).
  cbn [state_of].
  match goal with |- applyThematicMapping b ?s = _ => set (st1 := s) end.
  assert (entry "setores" (dataLayers st1)
          = Some (applyStyle a (Some <$> breaksA) thematicPalette <$> setores))
    as Hs1.
  { unfold st1. cbn [dataLayers]. by rewrite entry_eachLayer, Hs. }
  assert (extractValues b (applyStyle a (Some <$> breaksA) thematicPalette <$> setores)
          = extractValues b setores) as Hv1 by (by apply extractValues_fmap).
  destruct (applyThematicMapping_success b st1 _ Hs1)
    as (breaksB' & HB' & _ & _ & ->); [by rewrite Hv1|].
  rewrite Hv1, HB in HB'.
  apply (inj (fmap Some)) in HB'. subst breaksB'.
  unfold st1. cbn [dataLayers alerts]. f_equal. f_equal.
  rewrite eachLayer_compose. apply eachLayer_ext. intros layer.
  apply applyStyle_applyStyle.
Qed.

Lemma apply_after_apply_witness :
  applyThematicMapping "v0001" (state_of (applyThematicMapping "v0001" startup))
  = applyThematicMapping "v0001" startup.
Proof.
  apply (apply_after_apply "v0001" "v0001" startup
           [ polygon 2 "#f093fb"
               [("NM_MUN", VStr "Natividade"); ("v0001", VNum (of_Z 10))];
             polygon 3 "#f093fb"
               [("NM_MUN", VStr "Natividade"); ("v0001", VStr "")];
             polygon 4 "#f093fb"
               [("NM_MUN", VStr "Natividade"); ("v0001", VNum (of_Z 30))] ]).
  - reflexivity.
  - vm_compute. discriminate.
  - vm_compute. discriminate.
Defined.

Lemma reset_after_apply_aux (attribute : string) (st : app) :
  dataLayers (resetThematicMapping (state_of (applyThematicMapping attribute st)))
  = dataLayers (resetThematicMapping st).
Proof.
  destruct (entry "setores" (dataLayers st)) as [setores|] eqn:Hs.
  - destruct (extractValues attribute setores) as [|v vs] eqn:Hv.
    + rewrite (applyThematicMapping_no_data attribute st setores Hs Hv).
      cbn [state_of].
      rewrite (resetThematicMapping_loaded st setores Hs).
      match goal with
      | |- dataLayers (resetThematicMapping ?s) = _ =>
          by rewrite (resetThematicMapping_loaded s setores Hs)
      end.
    + destruct (applyThematicMapping_success attribute st setores Hs)
        as (breaks & _ & _ & _ & ->); [by rewrite Hv|].
      cbn [state_of].
      rewrite (resetThematicMapping_loaded st setores Hs).
      match goal with
      | |- dataLayers (resetThematicMapping ?s) = _ =>
          erewrite (resetThematicMapping_loaded s)
            by (cbn [dataLayers]; rewrite entry_eachLayer, Hs; done)
      end.
      cbn [dataLayers]. rewrite eachLayer_compose. apply eachLayer_ext.
      intros layer. unfold applyStyle.
      apply setStyle_absorb, dom_list_to_map_covered. reflexivity.
  - by rewrite applyThematicMapping_not_loaded.
Qed.

(** X5: reset gives the census sectors their static style whatever was
    applied before: the layers after apply-then-reset are the layers after
    reset alone. *)
Theorem reset_after_apply (attribute : string) (st : app) :
  dataLayers (resetThematicMapping (state_of (applyThematicMapping attribute st)))
  = dataLayers (resetThematicMapping st).
Proof. apply reset_after_apply_aux. Qed.

(** ** The stored classification *)

Lemma thematicInvariant_dispatch (e : event) (st : app) :
  thematicInvariant st -> thematicInvariant (state_of (dispatch e st)).
Proof.
  intros Hinv. destruct e as [attribute| |target|target]; simpl; try exact Hinv.
  - destruct (entry "setores" (dataLayers st)) as [setores|] eqn:Hs.
    + destruct (extractValues attribute setores) as [|v vs] eqn:Hv.
      * by rewrite (applyThematicMapping_no_data attribute st setores).
      * destruct (applyThematicMapping_success attribute st setores Hs)
          as (breaks & _ & Hlen & Hasc & ->); [by rewrite Hv|].
        right. exists breaks. by repeat split.
    + by rewrite applyThematicMapping_not_loaded.
  - destruct (entry "setores" (dataLayers st)) as [setores|] eqn:Hs.
    + by rewrite (resetThematicMapping_loaded st setores Hs).
    + unfold resetThematicMapping. by rewrite Hs.
Qed.

(** X6: whatever the user does (apply, also a failing one, reset, hover,
    in any order), the stored classification is never a partial one: it is
    either the empty one of startup or five ascending numeric breaks with
    the five-colour palette and legend entries drawn from exactly those. *)
Theorem run_keeps_thematicInvariant (events : list event) (st : app) :
  thematicInvariant st -> thematicInvariant (run events st).
Proof.
  unfold run. revert st.
  induction events as [|e events IH]; intros st Hinv; [done|].
  cbn [foldl]. by apply IH, thematicInvariant_dispatch.
Qed.

Lemma run_keeps_thematicInvariant_witness :
  thematicInvariant
    (run [Apply "NM_MUN"; MouseOver 2; Apply "v0001"; MouseOut 2; Reset] startup).
Proof.
  apply (run_keeps_thematicInvariant
           [Apply "NM_MUN"; MouseOver 2; Apply "v0001"; MouseOut 2; Reset] startup).
  left. repeat split; reflexivity.
Defined.

Lemma sort_insert_perm (x : number) (l : list number) :
  sort_insert x l ≡ₚ x :: l.
Proof.
  induction l as [|y l IH]; simpl; [done|].
  destruct (sub_pos y x); [done|]. rewrite IH. apply Permutation_swap.
Qed.

Lemma sort_perm (l : list number) : JS.sort l ≡ₚ l.
Proof.
  unfold JS.sort.
  enough (forall acc, foldl (fun acc x => sort_insert x acc) acc l ≡ₚ acc ++ l)
    as H by apply (H []).
  induction l as [|x l IH]; intros acc; simpl.
  - by rewrite app_nil_r.
  - rewrite IH, sort_insert_perm. simpl. apply Permutation_middle.
Qed.

Lemma ascending_le_last (l : list number) (x m : number) :
  ascending l = true -> Forall (fun v => is_NaN v = false) l ->
  x ∈ l -> last l = Some m -> num_le x m = true.
Proof.
  intros Hasc Hnan Hx Hm.
  apply list_elem_of_lookup in Hx as [i Hi].
  rewrite last_lookup in Hm.
  eapply (ascending_lookup_le l i (pred (length l))); [done|done| |done|done].
  apply lookup_lt_Some in Hi. lia.
Qed.

(** X7: after a successful apply the five stored breaks are values of the
    data (each is the parsed value of some sector) and the last one is the
    largest: every value that was classified is [<=] to it. *)
Theorem applied_breaks_from_data (attribute : string) (st : app)
    (setores : list featureLayer) :
  entry "setores" (dataLayers st) = Some setores ->
  extractValues attribute setores <> [] ->
  exists (breaks : list number) (top : number),
    thematicBreaks (state_of (applyThematicMapping attribute st)) = Some <$> breaks
    /\ length breaks = 5
    /\ last breaks = Some top
    /\ (forall b, b ∈ breaks -> b ∈ extractValues attribute setores)
    /\ (forall v, v ∈ extractValues attribute setores -> num_le v top = true).
Proof.
  intros Hs Hv.
  pose proof (extractValues_not_NaN attribute setores) as Hnan.
  destruct (sort_ascending _ Hnan) as [Hasc Hnan'].
  set (sorted := JS.sort (extractValues attribute setores)) in *.
  assert (sorted <> []) as Hne.
  { intros Hnil. apply (f_equal length) in Hnil. unfold sorted in Hnil.
    rewrite length_sort in Hnil. by destruct (extractValues attribute setores). }
  destruct (calculateJenks_ascending sorted 5 Hne) as (breaks & Hb & Hlen & _ & Hlast);
    [lia|done|done|].
  destruct (applyThematicMapping_success attribute st setores Hs Hv)
    as (breaks' & Hb' & _ & _ & ->).
  fold sorted in Hb'. rewrite Hb in Hb'. apply (inj (fmap Some)) in Hb'. subst breaks'.
  destruct (last sorted) as [top|] eqn:Htop.
  2:{ apply last_None in Htop. done. }
  exists breaks, top. cbn [state_of thematicBreaks].
  split; [done|]. split; [done|]. split; [done|]. split.
  - intros b Hin.
    assert (Some b ∈ calculateJenks sorted 5) as Hin'.
    { rewrite Hb. by apply list_elem_of_fmap_2. }
    rewrite calculateJenks_reads in Hin'.
    apply list_elem_of_fmap in Hin' as (i & Hi & _).
    symmetry in Hi. apply list_elem_of_lookup_2 in Hi.
    unfold sorted in Hi. by rewrite sort_perm in Hi.
  - intros v Hin. apply (ascending_le_last sorted); [done|done| |done].
    unfold sorted. by rewrite sort_perm.
Qed.

Lemma applied_breaks_from_data_witness :
  exists (breaks : list number) (top : number),
    thematicBreaks (state_of (applyThematicMapping "v0001" startup)) = Some <$> breaks
    /\ last breaks = Some top
    /\ num_le (of_Z 10) top = true.
Proof.
  destruct (applied_breaks_from_data "v0001" startup
              [ polygon 2 "#f093fb"
                  [("NM_MUN", VStr "Natividade"); ("v0001", VNum (of_Z 10))];
                polygon 3 "#f093fb"
                  [("NM_MUN", VStr "Natividade"); ("v0001", VStr "")];
                polygon 4 "#f093fb"
                  [("NM_MUN", VStr "Natividade"); ("v0001", VNum (of_Z 30))] ])
    as (breaks & top & Hb & _ & Hlast & _ & Hmax).
  - reflexivity.
  - vm_compute. discriminate.
  - exists breaks, top. split; [exact Hb|]. split; [exact Hlast|].
    apply Hmax. vm_compute. apply list_elem_of_here.
Defined.

Lemma applied_breaks_from_data_aux (attribute : string) (st : app)
    (setores : list featureLayer) :
  entry "setores" (dataLayers st) = Some setores ->
  extractValues attribute setores <> [] ->
  exists (breaks : list number) (top : number),
    applyThematicMapping attribute st
    = Normal
        {| dataLayers :=
             eachLayer "setores"
               (applyStyle attribute (Some <$> breaks) thematicPalette)
               (dataLayers st);
           currentThematicAttribute := Some attribute;
           thematicBreaks := Some <$> breaks;
           thematicColors := thematicPalette;
           legendContainer :=
             {| display := "block";
                title := "Legenda: " +:+ attribute;
                content := entries_from 0 (of_Z 0) breaks thematicPalette |};
           loadingHidden := true;
           alerts := alerts st |}
    /\ length breaks = 5
    /\ last breaks = Some top
    /\ (forall v, v ∈ extractValues attribute setores -> num_le v top = true).
Proof.
  intros Hs Hv.
  pose proof (extractValues_not_NaN attribute setores) as Hnan.
  destruct (sort_ascending _ Hnan) as [Hasc Hnan'].
  set (sorted := JS.sort (extractValues attribute setores)) in *.
  assert (sorted <> []) as Hne.
  { intros Hnil. apply (f_equal length) in Hnil. unfold sorted in Hnil.
    rewrite length_sort in Hnil. by destruct (extractValues attribute setores). }
  destruct (calculateJenks_ascending sorted 5 Hne) as (breaks & Hb & Hlen & _ & Hlast);
    [lia|done|done|].
  destruct (applyThematicMapping_success attribute st setores Hs Hv)
    as (breaks' & Hb' & _ & _ & ->).
  fold sorted in Hb'. rewrite Hb in Hb'. apply (inj (fmap Some)) in Hb'. subst breaks'.
  destruct (last sorted) as [top|] eqn:Htop.
  2:{ apply last_None in Htop. done. }
  exists breaks, top. split; [done|]. split; [done|]. split; [done|].
  intros v Hin. apply (ascending_le_last sorted); [done|done| |done].
  unfold sorted. by rewrite sort_perm.
Qed.

(** ** Colour classes *)

Lemma getColorForValue_from_firstClass (i0 : nat) (value : value)
    (breaks : list (option number)) (colors : list string) :
  getColorForValue_from i0 value breaks colors
  = match firstClass value breaks with
    | Some i => colors !! (i0 + i)
    | None => colors !! (length colors - 1)
    end.
Proof.
  revert i0. induction breaks as [|b rest IH]; intros i0; simpl; [done|].
  destruct (JS.le value b).
  - by rewrite Nat.add_0_r.
  - rewrite IH. destruct (firstClass value rest) as [i|]; simpl; [|done].
    f_equal. lia.
Qed.

Lemma firstClass_Some (value : value) (breaks : list (option number)) (i : nat) :
  firstClass value breaks = Some i ->
  exists b, breaks !! i = Some b /\ JS.le value b = true.
Proof.
  revert i. induction breaks as [|b0 rest IH]; intros i; simpl; [done|].
  destruct (JS.le value b0) eqn:Hle.
  - intros [= <-]. by exists b0.
  - destruct (firstClass value rest) as [j|]; simpl; [|done].
    intros [= <-]. by apply IH.
Qed.

Lemma firstClass_exists (value : value) (breaks : list (option number))
    (j : nat) (b : option number) :
  breaks !! j = Some b -> JS.le value b = true ->
  exists i, firstClass value breaks = Some i /\ i <= j.
Proof.
  revert j. induction breaks as [|b0 rest IH]; intros j Hj Hle; [done|].
  simpl. destruct (JS.le value b0) eqn:H0.
  - exists 0. split; [done|lia].
  - destruct j as [|j]; simpl in Hj.
    + injection Hj as ->. congruence.
    + destruct (IH j Hj Hle) as (i & -> & Hi). exists (S i). split; [done|lia].
Qed.

Lemma le_num_trans (x y : number) (b : option number) :
  num_le x y = true -> JS.le (VNum y) b = true -> JS.le (VNum x) b = true.
Proof.
  destruct b as [n|]; simpl; [|done]. apply num_le_trans.
Qed.

Lemma num_le_not_NaN (x y : number) :
  num_le x y = true -> is_NaN x = false /\ is_NaN y = false.
Proof. by destruct x, y. Qed.

Lemma getColorForValue_number (x : number) (breaks : list (option number))
    (colors : list string) :
  is_NaN x = false ->
  getColorForValue (VNum x) breaks colors
  = match firstClass (VNum x) breaks with
    | Some i => colors !! i
    | None => colors !! (length colors - 1)
    end.
Proof.
  intros Hx. unfold getColorForValue, isNaN. simpl. rewrite Hx.
  apply (getColorForValue_from_firstClass 0).
Qed.

(** X8: colour classes follow the order of the values: if [x <= y] and
    [y] falls in class [j] (the first break it is [<=] to), then [x] falls
    in a class [i <= j], and each gets the palette colour of its class.
    This holds for any breaks, ascending or not. *)
Theorem color_classes_monotone (x y : number) (breaks : list (option number))
    (colors : list string) (j : nat) :
  num_le x y = true ->
  firstClass (VNum y) breaks = Some j ->
  exists i,
    i <= j
    /\ firstClass (VNum x) breaks = Some i
    /\ getColorForValue (VNum x) breaks colors = colors !! i
    /\ getColorForValue (VNum y) breaks colors = colors !! j.
Proof.
  intros Hxy Hj.
  destruct (num_le_not_NaN x y Hxy) as [Hx Hy].
  destruct (firstClass_Some _ _ _ Hj) as (b & Hb & Hle).
  destruct (firstClass_exists (VNum x) breaks j b Hb) as (i & Hi & Hij).
  { by eapply le_num_trans. }
  exists i. split; [done|]. split; [done|].
  rewrite (getColorForValue_number x), (getColorForValue_number y) by done.
  by rewrite Hi, Hj.
Qed.

Lemma color_classes_monotone_witness :
  exists i,
    i <= 3
    /\ firstClass (VNum (of_Z 45)) (Some <$> (of_Z <$> [30; 50; 70; 90; 100]%Z))
       = Some i.
Proof.
  destruct (color_classes_monotone (of_Z 45) (of_Z 80)
              (Some <$> (of_Z <$> [30; 50; 70; 90; 100]%Z)) thematicPalette 3)
    as (i & Hi & Hclass & _).
  - reflexivity.
  - reflexivity.
  - exists i. split; [exact Hi|exact Hclass].
Defined.

(** X9: [getColorForValue] returns a colour, never [undefined], as soon as
    the palette is not empty and has at least as many colours as there are
    breaks. *)
Theorem getColorForValue_defined (value : value) (breaks : list (option number))
    (colors : list string) :
  colors <> [] ->
  length breaks <= length colors ->
  exists c, getColorForValue value breaks colors = Some c.
Proof.
  intros Hne Hlen. unfold getColorForValue.
  destruct (is_undefined value || is_null value || isNaN value); [by eexists|].
  rewrite getColorForValue_from_firstClass.
  destruct (firstClass value breaks) as [i|] eqn:Hi.
  - destruct (firstClass_Some _ _ _ Hi) as (b & Hb & _).
    apply lookup_lt_Some in Hb.
    destruct (lookup_lt_is_Some_2 colors (0 + i)) as [c Hc]; [lia|]. by exists c.
  - destruct (lookup_lt_is_Some_2 colors (length colors - 1)) as [c Hc].
    { destruct colors; [done|simpl; lia]. }
    by exists c.
Qed.

Lemma getColorForValue_defined_witness :
  exists c, getColorForValue (VStr "7") [Some (of_Z 5); None] ["#ffffb2"; "#bd0026"]
            = Some c.
Proof.
  apply (getColorForValue_defined (VStr "7") [Some (of_Z 5); None]
           ["#ffffb2"; "#bd0026"]).
  - discriminate.
  - simpl. lia.
Defined.

Lemma elem_of_extractValues (attribute : string) (layers : list featureLayer)
    (layer : featureLayer) :
  layer ∈ layers ->
  is_NaN (parseFloat (get (properties layer) attribute)) = false ->
  parseFloat (get (properties layer) attribute) ∈ extractValues attribute layers.
Proof.
  intros Hin Hnum. induction layers as [|l rest IH]; [by apply elem_of_nil in Hin|].
  simpl. apply elem_of_cons in Hin as [<-|Hin].
  - rewrite Hnum. simpl. apply list_elem_of_here.
  - destruct (is_NaN (parseFloat (get (properties l) attribute))); simpl.
    + by apply IH.
    + apply list_elem_of_further. by apply IH.
Qed.

(** X10: a successful apply paints every census sector with a colour that
    is defined: the no-data colour ['#ccc'] exactly for the sectors whose
    value does not parse to a number, and one of the five palette colours
    for every other sector (the fall-through to the last colour is never
    taken, since no value is above the last break). *)
Theorem applied_fill_colors (attribute : string) (st : app)
    (setores : list featureLayer) (i : nat) (layer : featureLayer) :
  entry "setores" (dataLayers st) = Some setores ->
  extractValues attribute setores <> [] ->
  setores !! i = Some layer ->
  exists applied,
    setoresLayer i (state_of (applyThematicMapping attribute st)) = Some applied
    /\ (is_NaN (parseFloat (get (properties layer) attribute)) = true ->
        styleOf "fillColor" applied = VStr "#ccc")
    /\ (is_NaN (parseFloat (get (properties layer) attribute)) = false ->
        exists c, c ∈ thematicPalette /\ styleOf "fillColor" applied = VStr c).
Proof.
  intros Hs Hv Hl.
  destruct (applied_breaks_from_data_aux attribute st setores Hs Hv)
    as (breaks & top & Hrun & Hlen & Hlast & Hmax).
  rewrite Hrun. cbn [state_of].
  exists (applyStyle attribute (Some <$> breaks) thematicPalette layer).
  split.
  { unfold setoresLayer. cbn [dataLayers]. rewrite entry_eachLayer, Hs. simpl.
    by rewrite list_lookup_fmap, Hl. }
  set (val := parseFloat (get (properties layer) attribute)).
  split; intros Hnan.
  - unfold applyStyle. fold val.
    etransitivity; [apply styleOf_setStyle; reflexivity|].
    unfold getColorForValue, isNaN. simpl. by rewrite Hnan.
  - assert (JS.le (VNum val) (Some top) = true) as Hle.
    { apply Hmax. apply elem_of_extractValues; [|done].
      by eapply list_elem_of_lookup_2. }
    assert ((Some <$> breaks) !! (length breaks - 1) = Some (Some top)) as Htop.
    { rewrite list_lookup_fmap. rewrite last_lookup in Hlast.
      replace (length breaks - 1) with (pred (length breaks)) by lia.
      by rewrite Hlast. }
    destruct (firstClass_exists (VNum val) _ _ _ Htop Hle) as (k & Hk & Hk4).
    destruct (lookup_lt_is_Some_2 thematicPalette k) as [c Hc].
    { simpl. lia. }
    exists c. split; [by eapply list_elem_of_lookup_2|].
    unfold applyStyle. fold val.
    etransitivity; [apply styleOf_setStyle; reflexivity|].
    by rewrite (getColorForValue_number val _ _ Hnan), Hk, Hc.
Qed.

Lemma applied_fill_colors_witness :
  exists applied,
    setoresLayer 1 (state_of (applyThematicMapping "v0001" startup)) = Some applied
    /\ styleOf "fillColor" applied = VStr "#ccc".
Proof.
  destruct (applied_fill_colors "v0001" startup
              [ polygon 2 "#f093fb"
                  [("NM_MUN", VStr "Natividade"); ("v0001", VNum (of_Z 10))];
                polygon 3 "#f093fb"
                  [("NM_MUN", VStr "Natividade"); ("v0001", VStr "")];
                polygon 4 "#f093fb"
                  [("NM_MUN", VStr "Natividade"); ("v0001", VNum (of_Z 30))] ]
              1
              (polygon 3 "#f093fb"
                 [("NM_MUN", VStr "Natividade"); ("v0001", VStr "")]))
    as (applied & Hrun & Hno & _).
  - reflexivity.
  - vm_compute. discriminate.
  - reflexivity.
  - exists applied. split; [exact Hrun|]. apply Hno. reflexivity.
Defined.

(** ** Classifier, fewer values than classes *)

Lemma fmap_seq_constant {B : Type} (f : nat -> B) (c : B) (start n : nat) :
  (forall i, f i = c) -> f <$> seq start n = replicate n c.
Proof.
  intros Hf. revert start. induction n as [|n IH]; intros start; [done|].
  simpl. by rewrite Hf, IH.
Qed.

(** X11: with fewer values than classes the step is 0: every break but
    the last is the first (smallest) value, and the last break is the last
    value.  With two classified sectors and five classes, four of the five
    legend classes collapse onto the minimum. *)
Theorem calculateJenks_few_values {A : Type} (values : list A) (k : nat) :
  length values < k ->
  calculateJenks values k
  = replicate (k - 1) (values !! 0) ++ [values !! (length values - 1)].
Proof.
  intros Hlt. rewrite calculateJenks_reads. unfold readIndices.
  rewrite Nat.div_small by done. rewrite fmap_app, <- list_fmap_compose.
  f_equal. apply fmap_seq_constant. intros i. simpl. by rewrite Nat.mul_0_r.
Qed.

Lemma calculateJenks_few_values_witness :
  calculateJenks [7; 9] 5 = [Some 7; Some 7; Some 7; Some 7; Some 9].
Proof.
  rewrite (calculateJenks_few_values [7; 9] 5); [reflexivity|].
  simpl. lia.
Defined.

(** ** Legend *)

Lemma updateLegend_from_ok (i : nat) (start : number)
    (breaks : list (option number)) (colors : list string)
    (content : list legendItem) :
  (updateLegend_from i start breaks colors content).2 = true
  <-> Forall (fun b => b <> None) breaks.
Proof.
  revert i start content.
  induction breaks as [|b rest IH]; intros i start content; simpl.
  - split; [constructor|done].
  - destruct b as [end_|].
    + rewrite IH. split.
      * intros H. by constructor.
      * intros H. by apply Forall_cons in H as [_ H].
    + simpl. split; [done|]. intros H. apply Forall_cons in H as [H _]. done.
Qed.

(** X12: [updateLegend] ends normally exactly when every break is a
    number; when one is [undefined] it throws, leaving the legend's
    visibility as it was (the title already overwritten). *)
Theorem updateLegend_normal_iff (attribute : string)
    (breaks : list (option number)) (colors : list string) (st : app) :
  ((exists st', updateLegend attribute breaks colors st = Normal st')
   <-> Forall (fun b => b <> None) breaks)
  /\ (forall st', updateLegend attribute breaks colors st = TypeError st' ->
        display (legendContainer st') = display (legendContainer st)
        /\ title (legendContainer st') = "Legenda: " +:+ attribute).
Proof.
  pose proof (updateLegend_from_ok 0 (of_Z 0) breaks colors []) as Hok.
  unfold updateLegend.
  destruct (updateLegend_from 0 (of_Z 0) breaks colors []) as [content ok].
  simpl in Hok. destruct ok; split.
  - split; [intros _; by apply Hok|]. intros _. by eexists.
  - intros st' Hst. discriminate Hst.
  - split; [intros [st' Hst]; discriminate Hst|].
    intros H. apply Hok in H. discriminate H.
  - intros st' [= <-]. done.
Qed.

Lemma updateLegend_normal_iff_witness :
  (exists st', updateLegend "v0001" [Some (of_Z 5); None] thematicPalette startup
               = TypeError st'
               /\ display (legendContainer st') = "none"
               /\ length (content (legendContainer st')) = 1)
  /\ ~ Forall (fun b : option number => b <> None) [Some (of_Z 5); None].
Proof.
  destruct (updateLegend_normal_iff "v0001" [Some (of_Z 5); None] thematicPalette
              startup) as [Hiff Hthrow].
  split.
  - eexists. split; [reflexivity|].
    split; [|reflexivity].
    apply (Hthrow _ eq_refl).
  - intros Hall. apply Hiff in Hall as [st' Hst]. discriminate Hst.
Defined.

(** ** Hover *)

Lemma with_layer_compose (target : nat) (f g : featureLayer -> featureLayer)
    (d : list (string * list featureLayer)) :
  (forall layer, leaflet_id (g layer) = leaflet_id layer) ->
  with_layer target f (with_layer target g d)
  = with_layer target (fun layer => f (g layer)) d.
Proof.
  intros Hg. unfold with_layer. rewrite <- list_fmap_compose.
  apply list_fmap_ext. intros ? [k group] _. simpl. f_equal.
  rewrite <- list_fmap_compose. apply list_fmap_ext. intros ? layer _. simpl.
  destruct (is_layer target layer) eqn:Ht; [|by rewrite Ht].
  unfold is_layer in *. by rewrite Hg, Ht.
Qed.

Lemma with_layer_ext (target : nat) (f g : featureLayer -> featureLayer)
    (d : list (string * list featureLayer)) :
  (forall layer, f layer = g layer) -> with_layer target f d = with_layer target g d.
Proof.
  intros Hfg. unfold with_layer. apply list_fmap_ext. intros ? [k group] _.
  simpl. f_equal. apply list_fmap_ext. intros ? layer _. simpl.
  by rewrite Hfg.
Qed.

Lemma with_layer_absent (target : nat) (f : featureLayer -> featureLayer)
    (d : list (string * list featureLayer)) :
  getLayerName target d = None -> with_layer target f d = d.
Proof.
  unfold with_layer. induction d as [|[k group] d IH]; [done|].
  cbn [getLayerName]. destruct (existsb (is_layer target) group) eqn:Hex; [done|].
  intros Hd. rewrite fmap_cons. cbn [fst snd]. f_equal; [|by apply IH].
  f_equal. clear IH Hd. induction group as [|layer group IH]; [done|].
  cbn [existsb] in Hex. apply orb_false_iff in Hex as [Hl Hex].
  rewrite fmap_cons. by rewrite Hl, IH.
Qed.

Lemma getLayerName_entry (target : nat) (d : list (string * list featureLayer))
    (name : string) :
  getLayerName target d = Some name -> exists group, (name, group) ∈ d.
Proof.
  induction d as [|[k group] d IH]; simpl; [done|].
  destruct (existsb (is_layer target) group).
  - intros [= <-]. exists group. apply list_elem_of_here.
  - intros H. destruct (IH H) as [g Hg]. exists g. by apply list_elem_of_further.
Qed.

Lemma isCircleMarker_highlightStyle (layer : featureLayer) :
  isCircleMarker (highlightStyle layer) = isCircleMarker layer.
Proof. unfold highlightStyle. by destruct (isCircleMarker layer) eqn:Hc; simpl. Qed.

(** With no attribute active and a configured layer, the restore writes
    every key the highlight wrote. *)
Lemma restoreStyle_highlightStyle (st : app) (name : string) (config : layerConfig)
    (layer : featureLayer) :
  truthy (currentThematicAttribute st) = false ->
  entry name CONFIG_layers = Some config ->
  restoreStyle st (Some name) (highlightStyle layer)
  = restoreStyle st (Some name) layer.
Proof.
  intros Hoff Hconfig. unfold restoreStyle. rewrite Hoff.
  cbn [andb mbind option_bind]. rewrite Hconfig.
  rewrite isCircleMarker_highlightStyle.
  unfold highlightStyle. destruct (isCircleMarker layer) eqn:Hc.
  - apply setStyle_absorb, dom_list_to_map_covered. reflexivity.
  - unfold getFeatureStyle.
    rewrite (setStyle_absorb _ _ layer) by (apply dom_list_to_map_covered; reflexivity).
    done.
Qed.

Lemma restoreStyle_state (st1 st2 : app) (name : option string)
    (layer : featureLayer) :
  currentThematicAttribute st1 = currentThematicAttribute st2 ->
  thematicBreaks st1 = thematicBreaks st2 ->
  thematicColors st1 = thematicColors st2 ->
  restoreStyle st1 name layer = restoreStyle st2 name layer.
Proof. intros Ha Hb Hc. unfold restoreStyle. by rewrite Ha, Hb, Hc. Qed.

Lemma app_ext (st1 st2 : app) :
  dataLayers st1 = dataLayers st2 ->
  currentThematicAttribute st1 = currentThematicAttribute st2 ->
  thematicBreaks st1 = thematicBreaks st2 ->
  thematicColors st1 = thematicColors st2 ->
  legendContainer st1 = legendContainer st2 ->
  loadingHidden st1 = loadingHidden st2 ->
  alerts st1 = alerts st2 ->
  st1 = st2.
Proof. destruct st1, st2. simpl. by intros -> -> -> -> -> -> ->. Qed.

Lemma mouseout_undoes_mouseover_aux (target : nat) (st : app) :
  truthy (currentThematicAttribute st) = false ->
  Forall (fun kg => entry kg.1 CONFIG_layers <> None) (dataLayers st) ->
  resetHighlight target (highlightFeatureFixed target st)
  = resetHighlight target st.
Proof.
  intros Hoff Hconf. apply app_ext; try reflexivity.
  unfold resetHighlight. rewrite getLayerName_highlightFeatureFixed.
  cbn [dataLayers set_dataLayers highlightFeatureFixed].
  rewrite with_layer_compose by apply leaflet_id_highlightStyle.
  destruct (getLayerName target (dataLayers st)) as [name|] eqn:Hname.
  - destruct (getLayerName_entry _ _ _ Hname) as [group Hin].
    rewrite Forall_forall in Hconf. specialize (Hconf _ Hin). simpl in Hconf.
    destruct (entry name CONFIG_layers) as [config|] eqn:Hc; [|done].
    apply with_layer_ext. intros layer.
    rewrite (restoreStyle_state _ st) by reflexivity.
    by apply (restoreStyle_highlightStyle _ name config).
  - by rewrite !with_layer_absent.
Qed.



Lemma restoreStyle_idemp (st : app) (name : option string) (layer : featureLayer) :
  restoreStyle st name (restoreStyle st name layer) = restoreStyle st name layer.
Proof.
  unfold restoreStyle.
  destruct (truthy (currentThematicAttribute st)
            && bool_decide (name = Some "setores")).
  { cbn [properties setStyle]. apply setStyle_setStyle. }
  destruct (name ≫= _) as [config|]; [|done].
  destruct (isCircleMarker layer) eqn:Hc.
  - cbn [isCircleMarker setStyle]. rewrite Hc. apply setStyle_setStyle.
  - destruct (bool_decide (name = Some "distritos")).
    + cbn [isCircleMarker setStyle]. rewrite Hc. f_equal.
      unfold getFeatureStyle.
      rewrite (setStyle_absorb (list_to_map [("color", _); ("weight", _)]))
        by (apply dom_list_to_map_covered; reflexivity).
      apply setStyle_setStyle.
    + cbn [isCircleMarker setStyle]. rewrite Hc. apply setStyle_setStyle.
Qed.

Lemma leaflet_id_restoreStyle (st : app) (name : option string)
    (layer : featureLayer) :
  leaflet_id (restoreStyle st name layer) = leaflet_id layer.
Proof.
  exact (f_equal (fun d : nat * bool * gmap string value => d.1.1)
           (layerData_restoreStyle st name layer)).
Qed.

(** X14: a second mouseout on the same layer changes nothing: the style
    [resetHighlight] restores is a fixed point of [resetHighlight], in
    thematic mode as in default mode. *)
Theorem resetHighlight_idempotent (target : nat) (st : app) :
  resetHighlight target (resetHighlight target st) = resetHighlight target st.
Proof.
  apply app_ext; try reflexivity.
  unfold resetHighlight. cbn [dataLayers set_dataLayers].
  rewrite getLayerName_with_layer by (intros; apply leaflet_id_restoreStyle).
  rewrite with_layer_compose by (intros; apply leaflet_id_restoreStyle).
  apply with_layer_ext. intros layer.
  rewrite (restoreStyle_state _ st) by reflexivity.
  apply restoreStyle_idemp.
Qed.

Lemma layerAt_with_layer (name : string) (i target : nat)
    (f : featureLayer -> featureLayer) (d : list (string * list featureLayer))
    (st : app) (layer : featureLayer) :
  layerAt name i st = Some layer ->
  layerAt name i (set_dataLayers (with_layer target f (dataLayers st)) st)
  = Some (if is_layer target layer then f layer else layer).
Proof.
  unfold layerAt. cbn [dataLayers set_dataLayers]. intros Hl.
  rewrite entry_with_layer.
  destruct (entry name (dataLayers st)) as [group|]; [|done]. simpl in *.
  by rewrite list_lookup_fmap, Hl.
Qed.

(** X15: a mouseover restyles its target only, and keeps the target's
    fill: fill colour and fill opacity are what they were, the border
    becomes white with weight 3.  Every other layer is left as it is. *)
Theorem highlight_keeps_fill (target : nat) (st : app) (name : string) (i : nat)
    (layer : featureLayer) :
  layerAt name i st = Some layer ->
  exists layer',
    layerAt name i (highlightFeatureFixed target st) = Some layer'
    /\ styleOf "fillColor" layer' = styleOf "fillColor" layer
    /\ styleOf "fillOpacity" layer' = styleOf "fillOpacity" layer
    /\ (leaflet_id layer <> target -> layer' = layer)
    /\ (leaflet_id layer = target ->
        styleOf "weight" layer' = dec 3 1
        /\ styleOf "color" layer' = VStr "#ffffff").
Proof.
  intros Hl. eexists. split.
  { unfold highlightFeatureFixed.
    by apply (layerAt_with_layer name i target highlightStyle (dataLayers st)). }
  unfold is_layer. destruct (Nat.eqb_spec (leaflet_id layer) target) as [Heq|Hne].
  - unfold highlightStyle. destruct (isCircleMarker layer).
    + split; [by apply styleOf_setStyle|]. split; [by apply styleOf_setStyle|].
      split; [done|]. intros _. split; by apply styleOf_setStyle.
    + split; [by apply styleOf_setStyle_other|].
      split; [by apply styleOf_setStyle|].
      split; [done|]. intros _. split; by apply styleOf_setStyle.
  - split; [done|]. split; [done|]. split; [done|]. done.
Qed.

Lemma highlight_keeps_fill_witness :
  exists layer',
    layerAt "setores" 0 (highlightFeatureFixed 2 mapped) = Some layer'
    /\ styleOf "fillColor" layer' = VStr "#ffffb2"
    /\ styleOf "weight" layer' = dec 3 1.
Proof.
  destruct (highlight_keeps_fill 2 mapped "setores" 0
              (applyStyle "v0001" (thematicBreaks mapped) (thematicColors mapped)
                 (polygon 2 "#f093fb"
                    [("NM_MUN", VStr "Natividade"); ("v0001", VNum (of_Z 10))])))
    as (layer' & Hat & Hfill & _ & _ & Hborder).
  - reflexivity.
  - exists layer'. split; [exact Hat|]. split.
    + rewrite Hfill. reflexivity.
    + by apply Hborder.
Defined.

(** * Basemap management *)

#[local] Set Warnings "-clear-no-such-hyp".


(** X16: whatever the outcome of [addBasemap] (also when it throws), the
    map never shows two basemaps: at most the current one is on the map,
    and it is one whose tile layer is kept. *)
Theorem addBasemap_keeps_oneBasemap (basemapName : string) (st : basemaps) :
  oneBasemap st -> oneBasemap (outcome_state (addBasemap basemapName st)).
Proof.
  intros [Hone Hdom]. unfold addBasemap.
  set (shown := match basemapLayers st !! currentBasemap st with
                | Some _ => shownBasemaps st ∖ {[ currentBasemap st ]}
                | None => shownBasemaps st
                end).
  assert (shown = ∅) as ->.
  { unfold shown. destruct (basemapLayers st !! currentBasemap st) eqn:Hc.
    - set_solver.
    - apply not_elem_of_dom in Hc. set_solver. }
  destruct (basemapLayers st !! basemapName) as [tile|] eqn:Hn.
  - assert (basemapName ∈ dom (basemapLayers st)) by (by apply elem_of_dom).
    destruct (activate basemapName _); unfold oneBasemap; simpl; set_solver.
  - destruct (entry basemapName CONFIG_basemaps) as [config|].
    + destruct (activate basemapName _); unfold oneBasemap; simpl;
        rewrite dom_insert_L; set_solver.
    + unfold oneBasemap; simpl. set_solver.
Qed.

Lemma addBasemap_keeps_oneBasemap_witness :
  oneBasemap
    (outcome_state
       (addBasemap "terrain"
          (basemapsAtLoad [("streets", true); ("satellite", false); ("terrain", false)]))).
Proof.
  apply (addBasemap_keeps_oneBasemap "terrain").
  split; simpl; set_solver.
Defined.




(** X18: tile layers are created once: whatever [addBasemap] does, a tile
    layer already kept stays the same object under the same name, and the
    only name that can be added is the one asked for, with the URL and
    attribution of the configuration. *)
Theorem addBasemap_keeps_tileLayers (basemapName name : string) (st : basemaps)
    (tile : tileLayer) :
  let st' := outcome_state (addBasemap basemapName st) in
  (basemapLayers st !! name = Some tile -> basemapLayers st' !! name = Some tile)
  /\ (basemapLayers st !! name = None ->
      basemapLayers st' !! name = Some tile ->
      name = basemapName
      /\ exists config,
           entry basemapName CONFIG_basemaps = Some config
           /\ tile_url tile = url config
           /\ tile_attribution tile = attribution config).
Proof.
  unfold addBasemap.
  destruct (basemapLayers st !! basemapName) as [old|] eqn:Hn.
  - destruct (activate basemapName _); simpl; split; try done; congruence.
  - destruct (entry basemapName CONFIG_basemaps) as [config|] eqn:Hc.
    + assert (forall layers' : gmap string tileLayer,
                layers' = <[basemapName :=
                             {| tile_url := url config;
                                tile_attribution := attribution config;
                                tile_maxZoom := CONFIG_maxZoom |}]> (basemapLayers st) ->
                (basemapLayers st !! name = Some tile -> layers' !! name = Some tile)
                /\ (basemapLayers st !! name = None -> layers' !! name = Some tile ->
                    name = basemapName
                    /\ exists config0, Some config = Some config0
                         /\ tile_url tile = url config0
                         /\ tile_attribution tile = attribution config0)) as Hins.
      { intros layers' ->. split.
        - intros Hold. rewrite lookup_insert_ne; [done|]. congruence.
        - intros Hnone Hnew. destruct (decide (basemapName = name)) as [<-|Hne].
          + rewrite lookup_insert_eq in Hnew. injection Hnew as <-.
            split; [done|]. by exists config.
          + rewrite lookup_insert_ne in Hnew by done. congruence. }
      destruct (activate basemapName _); simpl; by apply Hins.
    + simpl. split; [done|]. congruence.
Qed.

Lemma addBasemap_keeps_tileLayers_witness :
  let st := basemapsAtLoad [("streets", true); ("satellite", false)] in
  let st1 := outcome_state (addBasemap "streets" st) in
  let st2 := outcome_state (addBasemap "satellite" st1) in
  basemapLayers st2 !! "streets" = basemapLayers st1 !! "streets"
  /\ (tile_url <$> basemapLayers st2 !! "satellite")
     = (url <$> entry "satellite" CONFIG_basemaps).
Proof.
  intros st st1 st2.
  destruct (basemapLayers st1 !! "streets") as [tile|] eqn:Hold; [|by vm_compute in Hold].
  destruct (addBasemap_keeps_tileLayers "satellite" "streets" st1 tile) as [Hkeep _].
  split.
  - exact (Hkeep Hold).
  - reflexivity.
Defined.

(** X19: a name that is neither kept nor configured makes [addBasemap]
    throw after it has taken the current basemap off the map: the map is
    left with no basemap at all, while [currentBasemap], the tile layers
    and the option elements are untouched. *)
Theorem addBasemap_unknown (basemapName : string) (st : basemaps) :
  oneBasemap st ->
  basemapLayers st !! basemapName = None ->
  entry basemapName CONFIG_basemaps = None ->
  exists st',
    addBasemap basemapName st = Thrown st'
    /\ shownBasemaps st' = ∅
    /\ currentBasemap st' = currentBasemap st
    /\ basemapLayers st' = basemapLayers st
    /\ basemapOptions st' = basemapOptions st.
Proof.
  intros [Hone Hdom] Hn Hc. unfold addBasemap. rewrite Hn, Hc.
  eexists. split; [reflexivity|]. simpl. split; [|done].
  destruct (basemapLayers st !! currentBasemap st) eqn:Hcur.
  - set_solver.
  - apply not_elem_of_dom in Hcur. set_solver.
Qed.

Lemma addBasemap_unknown_witness :
  let st :=
    outcome_state
      (addBasemap "streets" (basemapsAtLoad [("streets", false); ("hybrid", false)])) in
  shownBasemaps st = {[ "streets" ]}
  /\ exists st',
       addBasemap "hybrid" st = Thrown st'
       /\ shownBasemaps st' = ∅
       /\ currentBasemap st' = "streets".
Proof.
  intros st. split; [reflexivity|].
  destruct (addBasemap_unknown "hybrid" st) as (st' & Hrun & Hshown & Hcur & _).
  - split; [by vm_compute|]. vm_compute. set_solver.
  - reflexivity.
  - reflexivity.
  - exists st'. split; [exact Hrun|]. split; [exact Hshown|]. exact Hcur.
Defined.

Lemma activate_cleared (name : string) (options options' : list (string * bool)) :
  activate name ((fun o : string * bool => (o.1, false)) <$> options) = Some options' ->
  activate name ((fun o : string * bool => (o.1, false)) <$> options') = Some options'.
Proof.
  revert options'. induction options as [|[k a] rest IH]; intros options'; [done|].
  rewrite fmap_cons. cbn [activate fst].
  destruct (decide (k = name)) as [->|Hne].
  - intros [= <-]. rewrite fmap_cons. cbn [activate fst]. rewrite decide_True by done.
    f_equal. f_equal. rewrite <- list_fmap_compose. by apply list_fmap_ext.
  - destruct (activate name _) as [tail|] eqn:Htail; [|done].
    intros [= <-]. rewrite fmap_cons. cbn [activate fst]. rewrite decide_False by done.
    by rewrite (IH tail eq_refl).
Qed.

(** X20: choosing the basemap already shown changes nothing: a second
    [addBasemap] of the same name returns the state the first returned. *)
Theorem addBasemap_idempotent (basemapName : string) (st st' : basemaps) :
  addBasemap basemapName st = Returned st' ->
  addBasemap basemapName st' = Returned st'.
Proof.
  unfold addBasemap at 1.
  set (shown := match basemapLayers st !! currentBasemap st with
                | Some _ => shownBasemaps st ∖ {[ currentBasemap st ]}
                | None => shownBasemaps st
                end).
  intros Hrun.
  assert (exists layers options,
            st' = {| currentBasemap := basemapName; basemapLayers := layers;
                     shownBasemaps := shown ∪ {[ basemapName ]};
                     basemapOptions := options |}
            /\ layers !! basemapName <> None
            /\ activate basemapName
                 ((fun o : string * bool => (o.1, false)) <$> basemapOptions st)
               = Some options) as (layers & options & -> & Hkept & Hact).
  { destruct (basemapLayers st !! basemapName) as [tile|] eqn:Hn.
    - destruct (activate basemapName _) as [options|] eqn:Hact; [|done].
      injection Hrun as <-. exists (basemapLayers st), options.
      split; [done|]. split; [by rewrite Hn|done].
    - destruct (entry basemapName CONFIG_basemaps) as [config|]; [|done].
      destruct (activate basemapName _) as [options|] eqn:Hact; [|done].
      injection Hrun as <-. eexists _, options.
      split; [done|]. split; [by rewrite lookup_insert_eq|done]. }
  unfold addBasemap. cbn [currentBasemap basemapLayers shownBasemaps basemapOptions].
  destruct (layers !! basemapName) as [tile|]; [|done].
  rewrite (activate_cleared _ _ _ Hact). f_equal. f_equal.
  clear Hrun Hact Hkept. clearbody shown.
  apply set_eq. intros x. destruct (decide (x = basemapName)); set_solver.
Qed.

Lemma addBasemap_idempotent_witness :
  exists st',
    addBasemap "streets" (basemapsAtLoad [("streets", false); ("terrain", true)])
    = Returned st'
    /\ addBasemap "streets" st' = Returned st'.
Proof.
  eexists. split; [reflexivity|].
  apply (addBasemap_idempotent "streets"
           (basemapsAtLoad [("streets", false); ("terrain", true)])).
  reflexivity.
Defined.

(** * Loading layers and the controls of the page *)

Lemma keys_storeData (d : list (string * list featureLayer)) :
  (storeData d).*1 = d.*1.
Proof.
  unfold storeData. rewrite <- list_fmap_compose. by apply list_fmap_ext.
Qed.

Lemma keys_dispatch (e : event) (st : app) :
  (dataLayers (state_of (dispatch e st))).*1 = (dataLayers st).*1.
Proof. by rewrite <- keys_storeData, storeData_dispatch, keys_storeData. Qed.

Lemma entry_None_keys {A : Type} (name : string) (d : list (string * A)) :
  entry name d = None <-> name ∉ d.*1.
Proof.
  induction d as [|[k v] d IH]; simpl.
  - split; [intros _; apply not_elem_of_nil|done].
  - rewrite not_elem_of_cons. destruct (decide (k = name)) as [->|Hne].
    + split; [done|]. by intros [? _].
    + rewrite IH. split; [by intros ?; split|by intros [_ ?]].
Qed.

Lemma entry_Some_keys {A : Type} (name : string) (d : list (string * A)) :
  entry name d <> None <-> name ∈ d.*1.
Proof.
  destruct (decide (name ∈ d.*1)) as [Hin|Hout].
  - split; [done|]. intros _ Hnone. by apply entry_None_keys in Hnone.
  - split; [|done]. intros Hsome. by apply entry_None_keys in Hout.
Qed.

Lemma entry_snoc {A : Type} (name k : string) (v : A) (d : list (string * A)) :
  entry name (d ++ [(k, v)])
  = match entry name d with
    | Some x => Some x
    | None => if decide (k = name) then Some v else None
    end.
Proof.
  induction d as [|[k' v'] d IH]; simpl; [done|].
  by destruct (decide (k' = name)).
Qed.

Ltac page_simpl :=
  cbn [outcome_state app_state set_app dataLayers set_dataLayers showLoading
       hideLoading set_loadingHidden alert onMap set_onMap set_panels
       currentThematicAttribute resetBtnDisplay].

(** What an event can do to the list of loaded layers: nothing, or add
    one configured name that was not loaded. *)
Lemma handle_loadedLayers (e : uiEvent) (st : page) :
  loadedLayers (outcome_state (handle e st)) = loadedLayers st
  \/ (exists name,
        entry name CONFIG_layers <> None
        /\ (name ∉ loadedLayers st)
        /\ loadedLayers (outcome_state (handle e st)) = loadedLayers st ++ [name]).
Proof.
  unfold loadedLayers.
  destruct e as [layerName [|] response|attribute checked|value| | |target|target];
    cbn [handle].
  - unfold loadLayer. cbn [app_state set_app dataLayers showLoading set_loadingHidden].
    destruct (entry layerName (dataLayers (app_state st))) as [group|] eqn:Hloaded.
    { page_simpl. rewrite Hloaded. left.
      by destruct (decide (layerName = "setores")). }
    destruct (entry layerName CONFIG_layers) as [config|] eqn:Hconfig; [|by left].
    destruct response as [message|layers]; [left; reflexivity|].
    right. exists layerName. split; [by rewrite Hconfig|].
    split; [by apply entry_None_keys|].
    page_simpl. rewrite entry_snoc, Hloaded.
    rewrite (decide_True (P := layerName = layerName)) by done.
    destruct (decide (layerName = "setores")); page_simpl; by rewrite fmap_app.
  - left. destruct (decide (layerName = "setores")) as [->|Hne].
    + cbn. destruct (entry "setores" (dataLayers (app_state st))); cbn;
        apply (keys_dispatch Reset).
    + by destruct (entry layerName (dataLayers (app_state st))).
  - by left.
  - by left.
  - left. destruct (negb (String.eqb (attributeSelect st) "")); [|done].
    pose proof (keys_dispatch (Apply (attributeSelect st)) (app_state st)) as Hk.
    cbn [dispatch] in Hk.
    by destruct (applyThematicMapping (attributeSelect st) (app_state st)).
  - left. apply (keys_dispatch Reset).
  - left. apply (keys_dispatch (MouseOver target)).
  - left. apply (keys_dispatch (MouseOut target)).
Qed.

Lemma handle_onMap (e : uiEvent) (st : page) (name : string) :
  name ∈ onMap (outcome_state (handle e st)) ->
  name ∈ onMap st \/ name ∈ loadedLayers (outcome_state (handle e st)).
Proof.
  unfold loadedLayers.
  destruct e as [layerName [|] response|attribute checked|value| | |target|target];
    cbn [handle]; try (by left).
  - unfold loadLayer. cbn [app_state set_app dataLayers showLoading set_loadingHidden].
    destruct (entry layerName (dataLayers (app_state st))) as [group|] eqn:Hloaded.
    { page_simpl. rewrite Hloaded.
      assert (layerName ∈ (dataLayers (app_state st)).*1) as Hin.
      { apply entry_Some_keys. by rewrite Hloaded. }
      destruct (decide (layerName = "setores")); page_simpl; set_solver. }
    destruct (entry layerName CONFIG_layers) as [config|] eqn:Hconfig; [|by left].
    destruct response as [message|layers]; [by left|].
    page_simpl. rewrite entry_snoc, Hloaded.
    rewrite (decide_True (P := layerName = layerName)) by done.
    destruct (decide (layerName = "setores")); page_simpl; rewrite fmap_app;
      set_solver.
  - destruct (decide (layerName = "setores")) as [->|Hne].
    + cbn. destruct (entry "setores" (dataLayers (app_state st))); cbn; set_solver.
    + destruct (entry layerName (dataLayers (app_state st))); cbn; set_solver.
  - destruct (negb (String.eqb (attributeSelect st) "")); [|by left].
    destruct (applyThematicMapping (attributeSelect st) (app_state st)); by left.
Qed.

Lemma layersInvariant_handle (e : uiEvent) (st : page) :
  layersInvariant st -> layersInvariant (outcome_state (handle e st)).
Proof.
  intros (Hnodup & Hconf & Hmap).
  assert (forall name, name ∈ loadedLayers st ->
                       name ∈ loadedLayers (outcome_state (handle e st))) as Hgrow.
  { intros name Hin. destruct (handle_loadedLayers e st) as [->|(n & _ & _ & ->)];
      [done|set_solver]. }
  split; [|split].
  - destruct (handle_loadedLayers e st) as [->|(n & _ & Hnew & ->)]; [done|].
    apply NoDup_app. split; [done|]. split; [set_solver|apply NoDup_singleton].
  - destruct (handle_loadedLayers e st) as [->|(n & Hn & _ & ->)]; [done|].
    apply Forall_app. split; [done|]. by constructor.
  - intros name Hin. destruct (handle_onMap e st name Hin) as [Hold|Hnew]; [|done].
    by apply Hgrow, Hmap.
Qed.














(** X24: when the load started by ticking a layer fails, the handler ends
    on the rethrown error: the user has been alerted (layer name, error
    message, file), nothing was loaded or added to the map, the panels
    are as they were, and the loading indicator, shown before the load,
    is left visible. *)
Theorem toggle_load_failure (layerName message : string) (config : layerConfig)
    (st : page) :
  entry layerName (dataLayers (app_state st)) = None ->
  entry layerName CONFIG_layers = Some config ->
  exists st',
    handle (LayerToggled layerName true (FetchFailed message)) st = Thrown st'
    /\ alerts (app_state st')
       = alerts (app_state st) ++ [loadErrorMessage layerName message (file config)]
    /\ loadingHidden (app_state st') = false
    /\ dataLayers (app_state st') = dataLayers (app_state st)
    /\ onMap st' = onMap st
    /\ attributeSelectorDisplay st' = attributeSelectorDisplay st
    /\ thematicMappingPanelDisplay st' = thematicMappingPanelDisplay st.
Proof.
  intros Hl Hc. cbn [handle]. unfold loadLayer. page_simpl. rewrite Hl, Hc.
  eexists. split; [reflexivity|]. by repeat split.
Qed.

Lemma toggle_load_failure_witness :
  exists st',
    handle (LayerToggled "urb_rur" true (FetchFailed "HTTP error! status: 404"))
           pageAtLoad
    = Thrown st'
    /\ loadingHidden (app_state st') = false
    /\ length (alerts (app_state st')) = 1.
Proof.
  destruct (toggle_load_failure "urb_rur" "HTTP error! status: 404"
              {| file := "data/urb_rur_nat.geojson"; color := "#4facfe" |}
              pageAtLoad)
    as (st' & Hrun & Halerts & Hloading & _).
  - reflexivity.
  - reflexivity.
  - exists st'. split; [exact Hrun|]. split; [exact Hloading|].
    rewrite Halerts. reflexivity.
Defined.

(** X25: the initial load never throws and always hides the loading
    indicator again; when loading the districts fails the user gets two
    alerts, the one of [loadLayer] and a general one, and no layer. *)
Theorem loadDataLayers_returns (response : fetched) (checked : bool) (st : page) :
  (exists st',
     loadDataLayers response checked st = Returned st'
     /\ loadingHidden (app_state st') = true)
  /\ (forall message config,
        response = FetchFailed message ->
        entry "distritos" (dataLayers (app_state st)) = None ->
        entry "distritos" CONFIG_layers = Some config ->
        let st' := outcome_state (loadDataLayers response checked st) in
        alerts (app_state st')
        = alerts (app_state st)
          ++ [ loadErrorMessage "distritos" message (file config);
               "Erro ao carregar camadas. Verifique o console para mais detalhes." ]
        /\ dataLayers (app_state st') = dataLayers (app_state st)
        /\ onMap st' = onMap st).
Proof.
  split.
  - unfold loadDataLayers.
    destruct (loadLayer "distritos" response checked _) as [st'|st'];
      eexists; split; reflexivity.
  - intros message config -> Hl Hc. unfold loadDataLayers, loadLayer. page_simpl.
    rewrite Hl, Hc. cbn. by rewrite <- app_assoc.
Qed.

Lemma loadDataLayers_returns_witness :
  let st' := outcome_state (loadDataLayers (FetchFailed "Failed to fetch") true pageAtLoad) in
  length (alerts (app_state st')) = 2
  /\ loadingHidden (app_state st') = true
  /\ dataLayers (app_state st') = [].
Proof.
  destruct (loadDataLayers_returns (FetchFailed "Failed to fetch") true pageAtLoad)
    as [_ Hfail].
  destruct (Hfail "Failed to fetch"
              {| file := "data/bairros_nat.geojson"; color := "#667eea" |}
              eq_refl eq_refl eq_refl) as (Halerts & Hlayers & _).
  split; [by rewrite Halerts|]. split; [reflexivity|exact Hlayers].
Defined.

(** ** Resting styles *)

Lemma eachLayer_id (name : string) (f : featureLayer -> featureLayer)
    (d : list (string * list featureLayer)) (group : list featureLayer) :
  entry name d = Some group ->
  Forall (fun layer => f layer = layer) group ->
  eachLayer name f d = d.
Proof.
  induction d as [|[k g] d IH]; cbn [eachLayer entry]; [done|].
  destruct (decide (k = name)) as [->|Hne].
  - intros [= ->] Hfix. f_equal. f_equal.
    rewrite <- (list_fmap_id group) at 2. by apply Forall_fmap_ext_1.
  - intros Hg Hfix. f_equal. by apply IH.
Qed.

(** X26: apply followed by reset is a round trip on the styles: when the
    census sectors are at their static style (the one [getFeatureStyle]
    gives, as after loading or after a reset), resetting after any apply
    hands back every layer exactly as it was before the apply. *)
Theorem apply_then_reset_restores (attribute : string) (st : app)
    (setores : list featureLayer) :
  entry "setores" (dataLayers st) = Some setores ->
  Forall (fun layer => setStyle (getFeatureStyle "#f093fb") layer = layer) setores ->
  dataLayers (resetThematicMapping (state_of (applyThematicMapping attribute st)))
  = dataLayers st.
Proof.
  intros Hs Hrest. rewrite reset_after_apply_aux.
  rewrite (resetThematicMapping_loaded st setores Hs). cbn [dataLayers].
  by apply (eachLayer_id _ _ _ setores).
Qed.

Lemma apply_then_reset_restores_witness :
  dataLayers (resetThematicMapping (state_of (applyThematicMapping "v0001" startup)))
  = dataLayers startup.
Proof.
  apply (apply_then_reset_restores "v0001" startup
           [ polygon 2 "#f093fb"
               [("NM_MUN", VStr "Natividade"); ("v0001", VNum (of_Z 10))];
             polygon 3 "#f093fb"
               [("NM_MUN", VStr "Natividade"); ("v0001", VStr "")];
             polygon 4 "#f093fb"
               [("NM_MUN", VStr "Natividade"); ("v0001", VNum (of_Z 30))] ]).
  - reflexivity.
  - repeat constructor; vm_compute; reflexivity.
Defined.

Lemma getLayerName_snoc (target : nat) (d : list (string * list featureLayer))
    (name : string) (group : list featureLayer) :
  getLayerName target d = None ->
  existsb (is_layer target) group = true ->
  getLayerName target (d ++ [(name, group)]) = Some name.
Proof.
  intros Hd Hg. induction d as [|[k g] d IH]; simpl in *; [by rewrite Hg|].
  destruct (existsb (is_layer target) g); [done|]. by apply IH.
Qed.

Lemma existsb_is_layer_lookup (group : list featureLayer) (i : nat)
    (layer : featureLayer) :
  group !! i = Some layer -> existsb (is_layer (leaflet_id layer)) group = true.
Proof.
  intros Hl. apply existsb_exists. exists layer. split.
  - apply list_elem_of_In. by eapply list_elem_of_lookup_2.
  - apply is_layer_own.
Qed.

(** The style a polygon of the group [name] has once loaded is the one
    [resetHighlight] gives it in default mode. *)
Lemma loaded_style_is_restored (st : app) (name : string) (config : layerConfig)
    (base : featureLayer) :
  truthy (currentThematicAttribute st) = false ->
  entry name CONFIG_layers = Some config ->
  isCircleMarker base = false ->
  (if decide (name = "distritos") then
     setStyle (list_to_map [ ("color", VStr "#000000"); ("weight", dec 2 1) ])
              (setStyle (getFeatureStyle (color config)) base)
   else setStyle (getFeatureStyle (color config)) base)
  = restoreStyle st (Some name) base.
Proof.
  intros Hoff Hconfig Hpoly. unfold restoreStyle. rewrite Hoff.
  cbn [andb mbind option_bind]. rewrite Hconfig, Hpoly.
  destruct (decide (name = "distritos")) as [->|Hne].
  - by rewrite bool_decide_eq_true_2.
  - rewrite bool_decide_eq_false_2; [done|]. congruence.
Qed.

(** X27: what [loadLayer] sets is what [resetHighlight] restores: after a
    layer group is loaded from polygons styled by [getFeatureStyle] (the
    districts getting their black border on top), and with no thematic
    attribute active, a mouseover followed by a mouseout on any of its
    layers gives the layer back exactly as loaded. *)
Theorem hover_restores_loaded_style (st : page) (name : string)
    (config : layerConfig) (bases : list featureLayer) (i : nat)
    (base : featureLayer) :
  layersInvariant st ->
  entry name (dataLayers (app_state st)) = None ->
  entry name CONFIG_layers = Some config ->
  truthy (currentThematicAttribute (app_state st)) = false ->
  bases !! i = Some base ->
  isCircleMarker base = false ->
  getLayerName (leaflet_id base) (dataLayers (app_state st)) = None ->
  let layers := setStyle (getFeatureStyle (color config)) <$> bases in
  let st' := outcome_state (handle (LayerToggled name true (Fetched layers)) st) in
  exists loaded,
    layerAt name i (app_state st') = Some loaded
    /\ layerAt name i
         (resetHighlight (leaflet_id base)
            (highlightFeatureFixed (leaflet_id base) (app_state st')))
       = Some loaded.
Proof.
  intros Hinv Hl Hconfig Hoff Hbase Hpoly Hfresh layers st'.
  pose proof (layersInvariant_handle (LayerToggled name true (Fetched layers)) st Hinv)
    as (_ & Hconf' & _).
  fold st' in Hconf'.
  set (group := if decide (name = "distritos") then
                  setStyle (list_to_map [ ("color", VStr "#000000"); ("weight", dec 2 1) ])
                  <$> layers
                else layers).
  assert (dataLayers (app_state st')
          = dataLayers (app_state st) ++ [(name, group)]) as Hd'.
  { unfold st'. cbn [handle]. unfold loadLayer. page_simpl. rewrite Hl, Hconfig.
    page_simpl. rewrite entry_snoc, Hl.
    rewrite (decide_True (P := name = name)) by done.
    by destruct (decide (name = "setores")). }
  assert (currentThematicAttribute (app_state st')
          = currentThematicAttribute (app_state st)) as Hattr.
  { unfold st'. cbn [handle]. unfold loadLayer. page_simpl. rewrite Hl, Hconfig.
    page_simpl. rewrite entry_snoc, Hl.
    rewrite (decide_True (P := name = name)) by done.
    by destruct (decide (name = "setores")). }
  set (loaded := restoreStyle (app_state st') (Some name) base).
  assert (group !! i = Some loaded) as Hloaded.
  { unfold loaded.
    rewrite <- (loaded_style_is_restored _ name config base) by congruence.
    unfold group, layers. destruct (decide (name = "distritos"));
      by rewrite ?list_lookup_fmap, Hbase. }
  exists loaded.
  assert (layerAt name i (app_state st') = Some loaded) as Hat.
  { unfold layerAt. rewrite Hd', entry_snoc, Hl.
    rewrite (decide_True (P := name = name)) by done. done. }
  split; [done|].
  rewrite mouseout_undoes_mouseover_aux.
  2:{ congruence. }
  2:{ unfold loadedLayers in Hconf'. rewrite Forall_fmap in Hconf'. exact Hconf'. }
  unfold resetHighlight.
  rewrite (layerAt_with_layer name i _ _ (dataLayers (app_state st')) _ loaded Hat).
  assert (leaflet_id loaded = leaflet_id base) as Hid
    by apply leaflet_id_restoreStyle.
  rewrite <- Hid at 1. rewrite is_layer_own. f_equal.
  rewrite Hd', (getLayerName_snoc _ _ name group Hfresh).
  - apply restoreStyle_idemp.
  - rewrite <- Hid. by eapply existsb_is_layer_lookup.
Qed.

Lemma hover_restores_loaded_style_witness :
  let bases :=
    [ {| leaflet_id := 21; isCircleMarker := false;
         properties := {[ "NM_DIST" := VStr "Natividade" ]};
         options := {[ "stroke" := VBool true ]} |} ] in
  let layers := setStyle (getFeatureStyle "#667eea") <$> bases in
  let st' :=
    outcome_state (handle (LayerToggled "distritos" true (Fetched layers)) pageAtLoad) in
  exists loaded,
    layerAt "distritos" 0 (app_state st') = Some loaded
    /\ styleOf "color" loaded = VStr "#000000"
    /\ layerAt "distritos" 0
         (resetHighlight 21 (highlightFeatureFixed 21 (app_state st')))
       = Some loaded.
Proof.
  intros bases layers st'.
  destruct (hover_restores_loaded_style pageAtLoad "distritos"
              {| file := "data/bairros_nat.geojson"; color := "#667eea" |}
              bases 0
              {| leaflet_id := 21; isCircleMarker := false;
                 properties := {[ "NM_DIST" := VStr "Natividade" ]};
                 options := {[ "stroke" := VBool true ]} |})
    as (loaded & Hat & Hhover).
  - split; [apply NoDup_nil_2|]. split; [constructor|].
    intros name Hin. simpl in Hin. set_solver.
  - reflexivity.
  - reflexivity.
  - reflexivity.
  - reflexivity.
  - reflexivity.
  - reflexivity.
  - exists loaded. split; [exact Hat|]. split; [|exact Hhover].
    vm_compute in Hat. injection Hat as <-. reflexivity.
Defined.
